(** * A retrieval-augmented chat service: provider fallback, retrieval context
      and session history

    Shallow embedding of the orchestration core of the service:
    - [llm/base.py], [llm/*_provider.py]: the provider adapters,
    - [llm/factory.py]: the provider registry and [generate_with_fallback],
    - [vector_db/retriever.py]: [retrieve_context],
    - [routers/chat.py]: prompt construction and the session store.

    Python strings are modelled as [string] (one character per code point),
    dictionaries used as maps as [gmap string _], exceptions as an explicit
    error monad carrying [str(e)], and the logger as a list of log records. *)

From Stdlib Require Import Ascii String DecimalString.
From stdpp Require Import base option list gmap strings.

Local Open Scope stdpp_scope.

(** ** Python values and strings *)

(** [str(x)] for an [Optional[str]], as an f-string renders it. *)
Definition py_str (o : option string) : string :=
  match o with
  | Some s => s
  | None => "None"
  end.

(** Truthiness of an [Optional[str]]: [None] and the empty string are falsy. *)
Definition truthy (o : option string) : bool :=
  match o with
  | Some s => negb (bool_decide (s = ""))
  | None => false
  end.

(** [str(n)] for a non-negative integer. *)
Definition str_of_nat (n : nat) : string :=
  NilEmpty.string_of_uint (Nat.to_uint n).

(** [s[:n]] *)
Fixpoint str_take (n : nat) (s : string) : string :=
  match n, s with
  | S n', String c s' => String c (str_take n' s')
  | _, _ => EmptyString
  end.

(** [sep.join(parts)] *)
Fixpoint str_join (sep : string) (parts : list string) : string :=
  match parts with
  | [] => ""
  | [p] => p
  | p :: rest => p +:+ sep +:+ str_join sep rest
  end.

Fixpoint str_prefix (p s : string) : bool :=
  match p, s with
  | EmptyString, _ => true
  | String a p', String b s' => bool_decide (a = b) && str_prefix p' s'
  | String _ _, EmptyString => false
  end.

(** [s.replace(old, new)] for a non-empty [old]: occurrences are replaced from
    left to right without overlap. [skip] counts the characters of a match
    that are still to be passed over. *)
Fixpoint str_replace_from (old new : string) (skip : nat) (s : string) : string :=
  match s with
  | EmptyString => EmptyString
  | String c s' =>
      match skip with
      | S k => str_replace_from old new k s'
      | O =>
          if str_prefix old s
          then new +:+ str_replace_from old new (String.length old - 1) s'
          else String c (str_replace_from old new 0 s')
      end
  end.

Definition str_replace (old new s : string) : string :=
  str_replace_from old new 0 s.

(** [c.lower()] on the ASCII range. *)
Definition ascii_lower (c : ascii) : ascii :=
  let n := nat_of_ascii c in
  if (65 <=? n)%nat && (n <=? 90)%nat then ascii_of_nat (n + 32) else c.

Fixpoint str_lower (s : string) : string :=
  match s with
  | EmptyString => EmptyString
  | String c s' => String (ascii_lower c) (str_lower s')
  end.

(** The line feed used by the prompt templates and by [join]. *)
Definition nl : string := String (ascii_of_nat 10) EmptyString.

(** ** Exceptions

    A computation either returns or raises a Python [Exception]; only
    [str(e)] is ever inspected by the code, so that is what [Raise] holds. *)

Inductive exn (A : Type) : Type :=
  | Ret (a : A)
  | Raise (msg : string).

Arguments Ret {A} a.
Arguments Raise {A} msg.

#[global] Instance exn_ret : MRet exn := λ A a, Ret a.

#[global] Instance exn_bind : MBind exn := λ A B k m,
  match m with
  | Ret a => k a
  | Raise e => Raise e
  end.

(** [try: body  except Exception as e: handler(e)] *)
Definition try_except {A} (body : exn A) (handler : string → exn A) : exn A :=
  match body with
  | Ret a => Ret a
  | Raise e => handler e
  end.

(** [xs[0]] *)
Definition index0 {A} (xs : list A) : exn A :=
  match xs with
  | x :: _ => Ret x
  | [] => Raise "list index out of range"
  end.

(** [xs[-1]] *)
Definition index_last {A} (xs : list A) : exn A :=
  match last xs with
  | Some x => Ret x
  | None => Raise "list index out of range"
  end.

(** [xs[:-1]] *)
Definition all_but_last {A} (xs : list A) : list A :=
  take (length xs - 1) xs.

(** [xs[-n:]] for [n > 0] *)
Definition last_n {A} (n : nat) (xs : list A) : list A :=
  drop (length xs - n) xs.

(** ** Data model ([llm/base.py]) *)

Record Message := mkMessage {
  msg_role : string;
  msg_content : string
}.

(** [Message.to_dict]: the dictionary [{"role": ..., "content": ...}], kept as
    its item list. *)
Definition to_dict (m : Message) : list (string * string) :=
  [("role", msg_role m); ("content", msg_content m)].

(** The dataclass [LLMResponse]. Its annotations are not checked when an
    instance is built: the OpenAI and HuggingFace adapters store
    [message.content] as they get it, and that can be [None]. *)
Record LLMResponse := mkLLMResponse {
  content : option string;
  model : string;
  provider : string;
  tokens_used : option nat;
  finish_reason : option string;
  error : option string
}.

(** Constructor constants of the source. *)
Definition adapter_apology : string :=
  "I apologize, but I encountered an error processing your request. Please try again.".

Definition fallback_apology : string :=
  "I apologize, but I'm currently unable to process your request. Please try again later.".

(** [response.finish_reason != "error"] *)
Definition not_error (r : LLMResponse) : bool :=
  negb (bool_decide (finish_reason r = Some "error")).

(** The contract of [BaseLLMProvider] that the factory relies on. *)
Class LLMProvider (P : Type) := {
  generate_response : P → list Message → option string → exn LLMResponse
}.

(** ** Provider adapters

    The vendor SDKs are external: a client is the function the adapter calls,
    returning the SDK's reply object or raising. Sampling parameters
    (temperature, top_p) are floats handed through unchanged to the SDK and
    are part of the client closure. *)

(** Reply of [chat.completions.create] and of [chat_completion]; the content
    of a message is optional. *)
Record Choice := mkChoice {
  choice_content : option string;
  choice_finish_reason : option string
}.

Record ChatCompletion := mkChatCompletion {
  choices : list Choice;
  usage_total_tokens : option nat
}.

(** Reply of [messages.create]. *)
Record AnthropicMessage := mkAnthropicMessage {
  content_blocks : list string;
  input_tokens : nat;
  output_tokens : nat;
  stop_reason : option string
}.

(** Reply of [send_message]; reading [.text] can itself raise. *)
Record GeminiReply := mkGeminiReply {
  reply_text : exn string
}.

(** [(model, messages, max_tokens)] *)
Definition ChatClient : Type :=
  string → list (list (string * string)) → nat → exn ChatCompletion.

(** [(model, max_tokens, system, messages)] *)
Definition AnthropicClient : Type :=
  string → nat → string → list (list (string * string)) → exn AnthropicMessage.

(** [start_chat(history)] followed by [send_message(text, max_output_tokens)];
    a history entry is [(role, parts)]. *)
Definition GeminiClient : Type :=
  list (string * list string) → string → nat → exn GeminiReply.

Record BaseFields := mkBase {
  api_key : string;
  base_model : string;
  max_tokens : nat;
  timeout : nat
}.

Inductive Provider :=
  | OpenAIProvider (self : BaseFields) (client : ChatClient)
  | ClaudeProvider (self : BaseFields) (client : AnthropicClient)
  | GeminiProvider (self : BaseFields) (client : GeminiClient)
  | HuggingFaceProvider (self : BaseFields) (client : ChatClient).

Definition fields (p : Provider) : BaseFields :=
  match p with
  | OpenAIProvider b _ | ClaudeProvider b _
  | GeminiProvider b _ | HuggingFaceProvider b _ => b
  end.

(** [self.__class__.__name__] *)
Definition class_name (p : Provider) : string :=
  match p with
  | OpenAIProvider _ _ => "OpenAIProvider"
  | ClaudeProvider _ _ => "ClaudeProvider"
  | GeminiProvider _ _ => "GeminiProvider"
  | HuggingFaceProvider _ _ => "HuggingFaceProvider"
  end.

(** [BaseLLMProvider.format_messages] *)
Definition format_messages (messages : list Message) (system_prompt : option string)
  : list (list (string * string)) :=
  let formatted :=
    if truthy system_prompt
    then [[("role", "system"); ("content", py_str system_prompt)]]
    else [] in
  formatted ++ map to_dict messages.

(** [BaseLLMProvider._handle_error] *)
Definition _handle_error (p : Provider) (error : string) (operation : string)
  : exn LLMResponse :=
  let error_msg := operation +:+ " failed: " +:+ error in
  Ret {| content := Some adapter_apology;
         model := base_model (fields p);
         provider := str_lower (str_replace "Provider" "" (class_name p));
         tokens_used := None;
         finish_reason := Some "error";
         error := Some error_msg |}.

(** The body of the [try] block of each adapter's [generate_response]. *)
Definition generate_body (p : Provider) (messages : list Message)
    (system_prompt : option string) : exn LLMResponse :=
  match p with
  | OpenAIProvider self client =>
      let formatted_messages := format_messages messages system_prompt in
      response ← client (base_model self) formatted_messages (max_tokens self);
      choice ← index0 (choices response);
      Ret {| content := choice_content choice;
             model := base_model self;
             provider := "openai";
             tokens_used := usage_total_tokens response;
             finish_reason := choice_finish_reason choice;
             error := None |}
  | ClaudeProvider self client =>
      let formatted_messages :=
        map (λ msg, [("role", msg_role msg); ("content", msg_content msg)]) messages in
      response ← client (base_model self) (max_tokens self)
                        (if truthy system_prompt then py_str system_prompt else "")
                        formatted_messages;
      text ← index0 (content_blocks response);
      Ret {| content := Some text;
             model := base_model self;
             provider := "claude";
             tokens_used := Some (input_tokens response + output_tokens response);
             finish_reason := stop_reason response;
             error := None |}
  | GeminiProvider self client =>
      let chat_history :=
        map (λ msg,
               (if bool_decide (msg_role msg = "user") then "user" else "model",
                [msg_content msg]))
            (all_but_last messages) in
      current ← index_last messages;
      response ← client chat_history (msg_content current) (max_tokens self);
      text ← reply_text response;
      Ret {| content := Some text;
             model := base_model self;
             provider := "gemini";
             tokens_used := None;
             finish_reason := Some "stop";
             error := None |}
  | HuggingFaceProvider self client =>
      let formatted_messages := format_messages messages system_prompt in
      response ← client (base_model self) formatted_messages (max_tokens self);
      choice ← index0 (choices response);
      Ret {| content := choice_content choice;
             model := base_model self;
             provider := "huggingface";
             tokens_used := None;
             finish_reason := choice_finish_reason choice;
             error := None |}
  end.

(** [generate_response]: [try: <body> except Exception as e:
    return self._handle_error(e, "generate_response")]. *)
Definition adapter_generate_response (p : Provider) (messages : list Message)
    (system_prompt : option string) : exn LLMResponse :=
  try_except (generate_body p messages system_prompt)
             (λ e, _handle_error p e "generate_response").

#[global] Instance Provider_LLMProvider : LLMProvider Provider := {
  generate_response := adapter_generate_response
}.

(** ** Configuration ([config.py]) *)

Record ProviderConfig := mkProviderConfig {
  enabled : bool;
  pc_model : string;
  api_key_env : string;
  pc_max_tokens : nat;
  pc_timeout : nat
}.

(** [providers] is a dictionary iterated in insertion order: its item list. *)
Record LLMConfig := mkLLMConfig {
  default_provider : string;
  enable_fallback : bool;
  fallback_order : list string;
  providers : list (string * ProviderConfig)
}.

(** [d.get(key)] on an item list. *)
Fixpoint dict_get {V} (d : list (string * V)) (key : string) : option V :=
  match d with
  | [] => None
  | (k, v) :: rest => if decide (k = key) then Some v else dict_get rest key
  end.

(** [get_provider_api_key]; [getenv] is the process environment. *)
Definition get_provider_api_key (cfg : LLMConfig) (getenv : string → option string)
    (provider_name : string) : option string :=
  match dict_get (providers cfg) provider_name with
  | None => None
  | Some provider_config => getenv (api_key_env provider_config)
  end.

(** ** The provider factory ([llm/factory.py]) *)

Inductive LogRecord :=
  | LogInfo (msg : string)
  | LogWarning (msg : string)
  | LogError (msg : string).

Record LLMFactory (P : Type) := mkLLMFactory {
  config : LLMConfig;
  _providers : gmap string P
}.

Arguments mkLLMFactory {P} config _providers.
Arguments config {P} _.
Arguments _providers {P} _.

Section Factory.
Context {P : Type} `{LLMProvider P}.

(** [name in self._providers] *)
Definition available (self : LLMFactory P) (name : string) : bool :=
  bool_decide (is_Some (_providers self !! name)).

Definition get_default_provider (self : LLMFactory P) : option P :=
  _providers self !! default_provider (config self).

Definition get_provider (self : LLMFactory P) (name : option string) : option P :=
  match name with
  | None => get_default_provider self
  | Some name => _providers self !! name
  end.

(** The loop over [fallback_order], appending to [providers_to_try]. *)
Fixpoint extend_with_fallback (self : LLMFactory P) (order : list string)
    (providers_to_try : list string) : list string :=
  match order with
  | [] => providers_to_try
  | provider_name :: rest =>
      if negb (bool_decide (provider_name ∈ providers_to_try))
         && available self provider_name
      then extend_with_fallback self rest (providers_to_try ++ [provider_name])
      else extend_with_fallback self rest providers_to_try
  end.

(** "Build provider order" of [generate_with_fallback]. *)
Definition providers_to_try (self : LLMFactory P)
    (preferred_provider : option string) : list string :=
  let providers_to_try :=
    if truthy preferred_provider
       && available self (py_str preferred_provider)
    then [py_str preferred_provider]
    else [] in
  if enable_fallback (config self)
  then extend_with_fallback self (fallback_order (config self)) providers_to_try
  else providers_to_try.

(** State of the trial loop: the value returned from inside the loop, if
    any, the variable [last_error], and what was logged. *)
Record LoopState := mkLoopState {
  returned : option LLMResponse;
  last_error : option string;
  log : list LogRecord
}.

(** "Try providers in order": the [for] loop with its [try]/[except]. *)
Fixpoint try_providers (self : LLMFactory P) (messages : list Message)
    (system_prompt : option string) (names : list string)
    (last_error : option string) (log : list LogRecord) : LoopState :=
  match names with
  | [] => mkLoopState None last_error log
  | provider_name :: rest =>
      match _providers self !! provider_name with
      | None =>
          (* [self._providers[provider_name]] raises KeyError *)
          let e := "'" +:+ provider_name +:+ "'" in
          try_providers self messages system_prompt rest (Some e)
            (log ++ [LogError ("Provider " +:+ provider_name +:+ " failed: " +:+ e)])
      | Some provider =>
          let log := log ++ [LogInfo ("Trying provider: " +:+ provider_name)] in
          match generate_response provider messages system_prompt with
          | Ret response =>
              if not_error response
              then mkLoopState (Some response) last_error
                     (log ++ [LogInfo ("✅ Success with " +:+ provider_name)])
              else
                try_providers self messages system_prompt rest (error response)
                  (log ++ [LogWarning ("Provider " +:+ provider_name
                                       +:+ " returned error: "
                                       +:+ py_str (error response))])
          | Raise e =>
              try_providers self messages system_prompt rest (Some e)
                (log ++ [LogError ("Provider " +:+ provider_name
                                   +:+ " failed: " +:+ e)])
          end
      end
  end.

(** [LLMFactory.generate_with_fallback], with the log it writes. *)
Definition generate_with_fallback_logged (self : LLMFactory P)
    (messages : list Message) (system_prompt : option string)
    (preferred_provider : option string) : LLMResponse * list LogRecord :=
  let st := try_providers self messages system_prompt
              (providers_to_try self preferred_provider) None [] in
  match returned st with
  | Some response => (response, log st)
  | None =>
      let error_msg :=
        "All providers failed. Last error: " +:+ py_str (last_error st) in
      ({| content := Some fallback_apology;
          model := "unknown";
          provider := "none";
          tokens_used := None;
          finish_reason := Some "error";
          error := Some error_msg |},
       log st ++ [LogError error_msg])
  end.

Definition generate_with_fallback (self : LLMFactory P)
    (messages : list Message) (system_prompt : option string)
    (preferred_provider : option string) : LLMResponse :=
  fst (generate_with_fallback_logged self messages system_prompt preferred_provider).

End Factory.

(** *** Building the registry *)

Inductive ProviderClass := OpenAI | Claude | Gemini | HuggingFace.

(** [LLMFactory.PROVIDERS] *)
Definition PROVIDERS : list (string * ProviderClass) :=
  [("openai", OpenAI); ("claude", Claude);
   ("gemini", Gemini); ("huggingface", HuggingFace)].

(** The SDK constructors called by [validate_config]. *)
Record SDK := mkSDK {
  openai_OpenAI : string → exn ChatClient;
  anthropic_Anthropic : string → exn AnthropicClient;
  genai_GenerativeModel : string → string → exn GeminiClient;
  InferenceClient : string → exn ChatClient
}.

(** [provider_class(api_key=..., model=..., ...)]: [__init__] stores the
    fields and runs [validate_config]. *)
Definition new_provider (sdk : SDK) (cls : ProviderClass) (key : string)
    (provider_config : ProviderConfig) : exn Provider :=
  let self := {| api_key := key;
                 base_model := pc_model provider_config;
                 max_tokens := pc_max_tokens provider_config;
                 timeout := pc_timeout provider_config |} in
  match cls with
  | OpenAI =>
      if bool_decide (key = "") then Raise "OpenAI API key is required"
      else client ← openai_OpenAI sdk key; Ret (OpenAIProvider self client)
  | Claude =>
      if bool_decide (key = "") then Raise "Anthropic API key is required"
      else client ← anthropic_Anthropic sdk key; Ret (ClaudeProvider self client)
  | Gemini =>
      if bool_decide (key = "") then Raise "Google API key is required"
      else client ← genai_GenerativeModel sdk key (base_model self);
           Ret (GeminiProvider self client)
  | HuggingFace =>
      if bool_decide (key = "") then Raise "HuggingFace token is required"
      else client ← InferenceClient sdk key; Ret (HuggingFaceProvider self client)
  end.

(** One iteration of the loop of [_initialize_providers]. *)
Definition initialize_provider (cfg : LLMConfig) (getenv : string → option string)
    (sdk : SDK) (registry : gmap string Provider)
    (item : string * ProviderConfig) : gmap string Provider :=
  let '(provider_name, provider_config) := item in
  if negb (enabled provider_config) then registry
  else
    let key := get_provider_api_key cfg getenv provider_name in
    if negb (truthy key) then registry
    else
      match dict_get PROVIDERS provider_name with
      | None => registry
      | Some provider_class =>
          match new_provider sdk provider_class (py_str key) provider_config with
          | Ret provider => <[provider_name := provider]> registry
          | Raise _ => registry
          end
      end.

(** [LLMFactory.__init__] *)
Definition LLMFactory_init (cfg : LLMConfig) (getenv : string → option string)
    (sdk : SDK) : LLMFactory Provider :=
  {| config := cfg;
     _providers := foldl (initialize_provider cfg getenv sdk) ∅ (providers cfg) |}.

(** ** Retrieval ([vector_db/retriever.py]) *)

(** A langchain [Document]; [metadata] is its dictionary. *)
Record Document := mkDocument {
  page_content : string;
  metadata : gmap string string
}.

Record Source := mkSource {
  title : string;
  url : string;
  source_content : string
}.

Record ContextData := mkContextData {
  context : string;
  sources : list Source
}.

(** The loop body: what is appended to [context_parts] and to [sources]. *)
Definition context_part (i : nat) (doc : Document) : string :=
  "[" +:+ str_of_nat i +:+ "] " +:+ page_content doc.

Definition source_of (doc : Document) : Source :=
  {| title := default "Unknown" (metadata doc !! "source");
     url := default "#" (metadata doc !! "url");
     source_content := str_take 200 (page_content doc) +:+ "..." |}.

(** [for i, doc in enumerate(results, start)] *)
Fixpoint context_parts (start : nat) (results : list Document) : list string :=
  match results with
  | [] => []
  | doc :: rest => context_part start doc :: context_parts (S start) rest
  end.

(** The method [VectorStore.search(query, k)] of the store the retriever
    holds. *)
Definition VectorStore : Type := string → nat → exn (list Document).

(** The body of the [try] block of [retrieve_context]. *)
Definition retrieve_body (vector_store : VectorStore) (query : string) (k : nat)
  : exn ContextData :=
  results ← vector_store query k;
  match results with
  | [] => Ret {| context := "No relevant information found."; sources := [] |}
  | _ =>
      Ret {| context := str_join (nl +:+ nl) (context_parts 1 results);
             sources := map source_of results |}
  end.

(** [DocumentRetriever.retrieve_context] *)
Definition retrieve_context (vector_store : VectorStore) (query : string) (k : nat)
  : exn ContextData :=
  try_except (retrieve_body vector_store query k)
    (λ _, Ret {| context := "Error retrieving information."; sources := [] |}).

(** ** Chat endpoints ([routers/chat.py]) *)

(** An endpoint returns a value or raises [HTTPException(status, detail)]. *)
Inductive http (A : Type) : Type :=
  | Ok (a : A)
  | HTTPException (status_code : nat) (detail : string).

Arguments Ok {A} a.
Arguments HTTPException {A} status_code detail.

Record ChatMessage := mkChatMessage {
  cm_role : string;
  cm_content : string
}.

Record ChatRequest := mkChatRequest {
  message : string;
  conversation_history : option (list ChatMessage);
  session_id : option string;
  req_provider : option string
}.

Record ChatResponse := mkChatResponse {
  response : string;
  resp_sources : list Source;
  resp_session_id : string;
  success : bool;
  provider_used : string;
  resp_tokens_used : option nat
}.

(** An entry of a session's ["history"] list. *)
Record HistoryEntry := mkHistoryEntry {
  entry_id : string;
  entry_role : string;
  entry_content : option string;
  entry_timestamp : string;
  entry_provider : option string
}.

(** A value of the module-level dictionary [conversations]. *)
Record Session := mkSession {
  created_at : string;
  history : list HistoryEntry;
  message_count : nat
}.

(** The successive values of [uuid.uuid4().hex] and
    [datetime.now().isoformat()] during one request. *)
Record Clock := mkClock {
  uuid4_hex : nat → string;
  now_isoformat : nat → string
}.

(** "Add conversation history": the last six messages of the request. *)
Definition history_messages (conversation_history : option (list ChatMessage))
  : list Message :=
  match conversation_history with
  | None | Some [] => []
  | Some msgs =>
      map (λ msg, {| msg_role := cm_role msg; msg_content := cm_content msg |})
          (last_n 6 msgs)
  end.

(** The prompt of [chat]. *)
Definition user_prompt (ctx msg : string) : string :=
  "Context information:" +:+ nl +:+ ctx +:+ nl +:+ nl
  +:+ "Based on the above context, please answer the following question:"
  +:+ nl +:+ nl +:+ "Question: " +:+ msg +:+ nl +:+ nl +:+ "Answer:".

(** The prompt of [chat_stream]. *)
Definition stream_prompt (ctx msg : string) : string :=
  "Context: " +:+ ctx +:+ nl +:+ nl
  +:+ "Question: " +:+ msg +:+ nl +:+ nl +:+ "Answer:".

(** "Build messages for LLM" in [chat]. *)
Definition chat_messages (request : ChatRequest) (context_data : ContextData)
  : list Message :=
  history_messages (conversation_history request)
  ++ [{| msg_role := "user";
         msg_content := user_prompt (context context_data) (message request) |}].

(** "Build messages" in [chat_stream]. *)
Definition chat_stream_messages (request : ChatRequest) (context_data : ContextData)
  : list Message :=
  history_messages (conversation_history request)
  ++ [{| msg_role := "user";
         msg_content := stream_prompt (context context_data) (message request) |}].

(** "Initialize session if needed" *)
Definition init_session (conversations : gmap string Session) (sid : string)
    (clock : Clock) : gmap string Session :=
  match conversations !! sid with
  | Some _ => conversations
  | None =>
      <[sid := {| created_at := now_isoformat clock 0;
                  history := [];
                  message_count := 0 |}]> conversations
  end.

(** "Store in conversation history" *)
Definition store_turn (conversations : gmap string Session) (sid : string)
    (clock : Clock) (request : ChatRequest) (llm_response : LLMResponse)
  : gmap string Session :=
  alter (λ s,
    {| created_at := created_at s;
       history := history s ++
         [ {| entry_id := "msg_" +:+ str_take 8 (uuid4_hex clock 1);
              entry_role := "user";
              entry_content := Some (message request);
              entry_timestamp := now_isoformat clock 1;
              entry_provider := None |};
           {| entry_id := "msg_" +:+ str_take 8 (uuid4_hex clock 2);
              entry_role := "assistant";
              entry_content := content llm_response;
              entry_timestamp := now_isoformat clock 2;
              entry_provider := Some (provider llm_response) |} ];
       message_count := message_count s + 1 |}) sid conversations.

(** A task handed to [background_tasks.add_task]; the server runs it once
    the response has been sent. *)
Inductive BackgroundTask := cleanup_old_sessions_task.

(** What one call of [chat] does, beyond its return value: [conversations]
    as it is when the handler returns, the messages handed to the factory,
    if it got that far, and the background tasks it added. *)
Record ChatOutcome := mkChatOutcome {
  result : http ChatResponse;
  conversations_after : gmap string Session;
  messages_sent : option (list Message);
  background_tasks : list BackgroundTask
}.

Section Chat.
Context {P : Type} `{LLMProvider P}.

(** The pydantic model [ChatMessageValidator(message, session_id)]
    accepts or raises; [make_retriever] is [DocumentRetriever()], which
    opens the vector store. *)
Variable validator : string → option string → exn unit.
Variable make_retriever : exn VectorStore.
Variable system_prompt : string.

(** [str(e)] of the validation error pydantic raises when [ChatResponse] is
    built with [response=None] ([response] is declared [str]). *)
Variable response_error : string.

(** The endpoint [chat]. Every exception is turned into
    [HTTPException(500, str(e))]; what was stored before the failure stays
    in [conversations]. *)
Definition chat (factory : LLMFactory P) (clock : Clock)
    (conversations : gmap string Session) (request : ChatRequest) : ChatOutcome :=
  match validator (message request) (session_id request) with
  | Raise e => mkChatOutcome (HTTPException 500 e) conversations None []
  | Ret _ =>
      let sid :=
        if truthy (session_id request) then py_str (session_id request)
        else "session_" +:+ str_take 12 (uuid4_hex clock 0) in
      let conversations := init_session conversations sid clock in
      match make_retriever with
      | Raise e => mkChatOutcome (HTTPException 500 e) conversations None []
      | Ret vector_store =>
          match retrieve_context vector_store (message request) 4 with
          | Raise e => mkChatOutcome (HTTPException 500 e) conversations None []
          | Ret context_data =>
              let messages := chat_messages request context_data in
              let llm_response :=
                generate_with_fallback factory messages (Some system_prompt)
                                       (req_provider request) in
              let conversations :=
                store_turn conversations sid clock request llm_response in
              (* "Cleanup old sessions in background" *)
              let background_tasks := [cleanup_old_sessions_task] in
              mkChatOutcome
                match content llm_response with
                | Some text =>
                    Ok {| response := text;
                          resp_sources := sources context_data;
                          resp_session_id := sid;
                          success := not_error llm_response;
                          provider_used := provider llm_response;
                          resp_tokens_used := tokens_used llm_response |}
                | None => HTTPException 500 response_error
                end
                conversations (Some messages) background_tasks
          end
      end
  end.

(** "Get provider" in [chat_stream]. *)
Definition chat_stream_provider (factory : LLMFactory P) (request : ChatRequest)
  : option P :=
  if truthy (req_provider request)
  then get_provider factory (req_provider request)
  else get_default_provider factory.

End Chat.

(** The endpoint [get_history]. *)
Definition get_history (conversations : gmap string Session) (sid : string)
  : http Session :=
  match conversations !! sid with
  | None => HTTPException 404 "Session not found"
  | Some s => Ok s
  end.

(** The endpoint [delete_history]: the reply and the new [conversations]. *)
Definition delete_history (conversations : gmap string Session) (sid : string)
  : http string * gmap string Session :=
  match conversations !! sid with
  | Some _ => (Ok "History deleted successfully", delete sid conversations)
  | None => (HTTPException 404 "Session not found", conversations)
  end.

(** ** Specification-side definitions *)

(** De-duplication that keeps the first occurrence of every name. *)
Fixpoint dedup_first (l : list string) : list string :=
  match l with
  | [] => []
  | x :: rest => x :: filter (λ y, y ≠ x) (dedup_first rest)
  end.

(** The candidate order in the words of the design: the preferred provider
    first, if one is specified and available, then the configured fallback
    order restricted to the available providers, the whole without
    duplicates. *)
Definition spec_candidates {P} (self : LLMFactory P)
    (preferred_provider : option string) : list string :=
  let first :=
    match preferred_provider with
    | Some p => if decide (p ≠ "" ∧ is_Some (_providers self !! p)) then [p] else []
    | None => []
    end in
  dedup_first
    (first ++ filter (λ n, is_Some (_providers self !! n))
                     (fallback_order (config self))).

(** A registry of three providers named A, B and C. *)
Definition abc_factory (fallback : bool) : LLMFactory unit :=
  {| config := {| default_provider := "A";
                  enable_fallback := fallback;
                  fallback_order := ["A"; "B"; "C"];
                  providers := [] |};
     _providers := <["A" := ()]> (<["B" := ()]> (<["C" := ()]> ∅)) |}.

(** The outcome of trying one candidate: the lookup in the registry and the
    call, as the [try] block sees them. *)
Definition attempt {P} `{LLMProvider P} (self : LLMFactory P)
    (messages : list Message) (system_prompt : option string)
    (name : string) : exn LLMResponse :=
  match _providers self !! name with
  | Some p => generate_response p messages system_prompt
  | None => Raise ("'" +:+ name +:+ "'")
  end.

(** A candidate fails when it raises or returns an error result. *)
Definition failed (o : exn LLMResponse) : Prop :=
  match o with
  | Raise _ => True
  | Ret r => finish_reason r = Some "error"
  end.

(** A candidate succeeds with [r] when it returns [r] and [r] is not an
    error result. *)
Definition succeeds_with (o : exn LLMResponse) (r : LLMResponse) : Prop :=
  o = Ret r ∧ finish_reason r ≠ Some "error".

(** The error a failed candidate leaves behind. *)
Definition recorded (o : exn LLMResponse) : option string :=
  match o with
  | Raise e => Some e
  | Ret r => error r
  end.

(** The error left by the last of [names], or [init] when there is none. *)
Definition last_recorded {P} `{LLMProvider P} (self : LLMFactory P)
    (messages : list Message) (system_prompt : option string)
    (init : option string) (names : list string) : option string :=
  match last names with
  | Some n => recorded (attempt self messages system_prompt n)
  | None => init
  end.

(** [s[n:]] *)
Fixpoint str_drop (n : nat) (s : string) : string :=
  match n, s with
  | S n', String _ s' => str_drop n' s'
  | _, _ => s
  end.

(** The providers the log reports as tried, in order. *)
Definition tried (log : list LogRecord) : list string :=
  omap (λ r,
          match r with
          | LogInfo m =>
              if str_prefix "Trying provider: " m
              then Some (str_drop 17 m) else None
          | _ => None
          end) log.

(** The provider name an adapter reports: its class name without
    ["Provider"], in lower case (as in [get_info] and [_handle_error]). *)
Definition provider_id (p : Provider) : string :=
  str_lower (str_replace "Provider" "" (class_name p)).

(** A deployment used in the examples: OpenAI is unreachable, Claude and
    Gemini answer, HuggingFace is disabled. *)
Definition demo_provider_config (on : bool) (m env : string) : ProviderConfig :=
  {| enabled := on; pc_model := m; api_key_env := env;
     pc_max_tokens := 1000; pc_timeout := 30 |}.

Definition demo_config (fallback : bool) : LLMConfig :=
  {| default_provider := "openai";
     enable_fallback := fallback;
     fallback_order := ["openai"; "claude"; "gemini"; "huggingface"];
     providers :=
       [("openai", demo_provider_config true "gpt-4o-mini" "OPENAI_API_KEY");
        ("claude", demo_provider_config true "claude-3-haiku" "ANTHROPIC_API_KEY");
        ("gemini", demo_provider_config true "gemini-pro" "GOOGLE_API_KEY");
        ("huggingface", demo_provider_config false "zephyr-7b" "HF_TOKEN")] |}.

Definition demo_getenv (name : string) : option string :=
  if decide (name = "HF_TOKEN") then None else Some ("key-" +:+ name).

Definition demo_sdk : SDK :=
  {| openai_OpenAI := λ _, Ret (λ _ _ _, Raise "Connection error.");
     anthropic_Anthropic := λ _,
       Ret (λ _ _ _ _,
              Ret {| content_blocks := ["Refunds take 5 business days."];
                     input_tokens := 40; output_tokens := 8;
                     stop_reason := Some "end_turn" |});
     genai_GenerativeModel := λ _ _, Ret (λ _ _ _, Ret {| reply_text := Ret "Hi." |});
     InferenceClient := λ _, Raise "offline" |}.

Definition demo_factory (fallback : bool) : LLMFactory Provider :=
  LLMFactory_init (demo_config fallback) demo_getenv demo_sdk.

Definition demo_messages : list Message :=
  [{| msg_role := "user"; msg_content := "What is the refund policy?" |}].

Definition demo_claude_response : LLMResponse :=
  {| content := Some "Refunds take 5 business days.";
     model := "claude-3-haiku";
     provider := "claude";
     tokens_used := Some 48;
     finish_reason := Some "end_turn";
     error := None |}.

(** A short passage, as returned by the vector store. *)
Definition refund_doc : Document :=
  {| page_content := "Refunds are processed within 5 business days.";
     metadata := <["source" := "policy.md"]> ∅ |}.

Definition refund_store : VectorStore := λ _ _, Ret [refund_doc].

(** The excerpt in the words of the design: the passage cut to 200
    characters, with the ellipsis only when something was cut. *)
Definition spec_excerpt (text : string) : string :=
  if decide (String.length text ≤ 200) then text
  else str_take 200 text +:+ "...".

(** The conversion of a request message done in the history loop. *)
Definition to_message (msg : ChatMessage) : Message :=
  {| msg_role := cm_role msg; msg_content := cm_content msg |}.

(** A request carrying eight earlier messages. *)
Definition demo_history : list ChatMessage :=
  [ mkChatMessage "user" "m1"; mkChatMessage "assistant" "m2";
    mkChatMessage "user" "m3"; mkChatMessage "assistant" "m4";
    mkChatMessage "user" "m5"; mkChatMessage "assistant" "m6";
    mkChatMessage "user" "m7"; mkChatMessage "assistant" "m8" ].

Definition demo_request : ChatRequest :=
  {| message := "What is the refund policy?";
     conversation_history := Some demo_history;
     session_id := Some "s1";
     req_provider := None |}.

Definition demo_clock : Clock :=
  {| uuid4_hex := λ _, "0123456789abcdef0123456789abcdef";
     now_isoformat := λ _, "2024-01-01T00:00:00" |}.

(** ** Further operations of the factory and of its callers *)

(** [LLMFactory.get_available_providers]: [list(self._providers.keys())].
    [__init__] fills the registry while iterating [config.llm.providers], a
    dictionary, so the keys in insertion order are the configured names that
    were registered. *)
Definition get_available_providers {P} (self : LLMFactory P) : list string :=
  filter (λ n, is_Some (_providers self !! n)) (map fst (providers (config self))).

(** [repr] of a list of plain names, as an f-string renders [available]. *)
Definition repr_names (names : list string) : string :=
  "[" +:+ str_join ", " (map (λ n, "'" +:+ n +:+ "'") names) +:+ "]".

(** The reply of [switch_provider]. *)
Record SwitchReply := mkSwitchReply {
  switch_success : bool;
  switch_provider_name : string;
  switch_message : string
}.

(** The endpoint [switch_provider] ([routers/config.py]). [get_config()] and
    [factory.config] are the same object, so the assignment to
    [config.llm.default_provider] is seen by the factory. *)
Definition switch_provider {P} (factory : LLMFactory P) (provider_name : string)
  : http SwitchReply * LLMFactory P :=
  let available := get_available_providers factory in
  if negb (bool_decide (provider_name ∈ available)) then
    (HTTPException 400
       ("Provider " +:+ provider_name +:+ " not available. Available: "
        +:+ repr_names available),
     factory)
  else
    (Ok {| switch_success := true;
           switch_provider_name := provider_name;
           switch_message := "Switched to " +:+ provider_name +:+ " provider" |},
     {| config := {| default_provider := provider_name;
                     enable_fallback := enable_fallback (config factory);
                     fallback_order := fallback_order (config factory);
                     providers := providers (config factory) |};
        _providers := _providers factory |}).

(** The reply of [readiness_check] ([routers/health.py]). *)
Inductive Readiness :=
  | Ready (providers : list string)
  | NotReady (reason : string).

Definition readiness_check {P} (factory : LLMFactory P) : Readiness :=
  let providers := get_available_providers factory in
  match providers with
  | [] => NotReady "No LLM providers available"
  | _ => Ready providers
  end.

(** ** Streaming ([stream_response], [chat_stream]) *)

(** What iterating an SDK stream delivers: the items it yields and, when the
    iteration ends with an exception, that exception. *)
Record SDKStream (A : Type) := mkSDKStream {
  stream_items : list A;
  stream_failure : option string
}.

Arguments mkSDKStream {A} stream_items stream_failure.
Arguments stream_items {A} _.
Arguments stream_failure {A} _.

(** A generator run to its end: the fragments it yielded and the exception
    that ended it, if any. *)
Definition Generator : Type := list string * option string.

(** [for item in stream: <body>], where the body yields fragments or raises. *)
Fixpoint stream_loop {A} (body : A → exn (list string)) (items : list A)
    (failure : option string) : Generator :=
  match items with
  | [] => ([], failure)
  | item :: rest =>
      match body item with
      | Raise e => ([], Some e)
      | Ret out =>
          let '(outs, exc) := stream_loop body rest failure in
          (out ++ outs, exc)
      end
  end.

(** [try: <generator> except Exception as e: yield f"Error: {str(e)}"] *)
Definition yield_error (g : Generator) : list string :=
  g.1 ++ match g.2 with
         | Some e => ["Error: " +:+ e]
         | None => []
         end.

(** A streamed completion chunk: [chunk.choices], each with its
    [delta.content]. *)
Definition CompletionChunk : Type := list (option string).

(** [(model, messages, max_tokens)] with [stream=True] *)
Definition StreamChatClient : Type :=
  string → list (list (string * string)) → nat → exn (SDKStream CompletionChunk).

(** [(model, max_tokens, system, messages)]: [messages.stream(...)] and its
    [text_stream] *)
Definition StreamAnthropicClient : Type :=
  string → nat → string → list (list (string * string)) → exn (SDKStream string).

(** [start_chat(history)] and [send_message(text, stream=True)]; reading
    [chunk.text] can raise. *)
Definition StreamGeminiClient : Type :=
  list (string * list string) → string → nat → exn (SDKStream (exn string)).

(** The loop body of the OpenAI and HuggingFace adapters. *)
Definition completion_chunk_body (chunk : CompletionChunk) : exn (list string) :=
  choice ← index0 chunk;
  Ret (if truthy choice then [py_str choice] else []).

(** [OpenAIProvider.stream_response] *)
Definition OpenAIProvider_stream_response (self : BaseFields)
    (client : StreamChatClient) (messages : list Message)
    (system_prompt : option string) : list string :=
  yield_error
    (let formatted_messages := format_messages messages system_prompt in
     match client (base_model self) formatted_messages (max_tokens self) with
     | Raise e => ([], Some e)
     | Ret stream =>
         stream_loop completion_chunk_body (stream_items stream) (stream_failure stream)
     end).

(** [HuggingFaceProvider.stream_response] *)
Definition HuggingFaceProvider_stream_response (self : BaseFields)
    (client : StreamChatClient) (messages : list Message)
    (system_prompt : option string) : list string :=
  yield_error
    (let formatted_messages := format_messages messages system_prompt in
     match client (base_model self) formatted_messages (max_tokens self) with
     | Raise e => ([], Some e)
     | Ret stream =>
         stream_loop completion_chunk_body (stream_items stream) (stream_failure stream)
     end).

(** [ClaudeProvider.stream_response] *)
Definition ClaudeProvider_stream_response (self : BaseFields)
    (client : StreamAnthropicClient) (messages : list Message)
    (system_prompt : option string) : list string :=
  yield_error
    (let formatted_messages :=
       map (λ msg, [("role", msg_role msg); ("content", msg_content msg)]) messages in
     match client (base_model self) (max_tokens self)
                  (if truthy system_prompt then py_str system_prompt else "")
                  formatted_messages with
     | Raise e => ([], Some e)
     | Ret stream =>
         stream_loop (λ text, Ret [text]) (stream_items stream) (stream_failure stream)
     end).

(** [GeminiProvider.stream_response] *)
Definition GeminiProvider_stream_response (self : BaseFields)
    (client : StreamGeminiClient) (messages : list Message)
    (system_prompt : option string) : list string :=
  yield_error
    (let chat_history :=
       map (λ msg,
              (if bool_decide (msg_role msg = "user") then "user" else "model",
               [msg_content msg]))
           (all_but_last messages) in
     match index_last messages with
     | Raise e => ([], Some e)
     | Ret current =>
         match client chat_history (msg_content current) (max_tokens self) with
         | Raise e => ([], Some e)
         | Ret response =>
             stream_loop
               (λ chunk : exn string,
                  text ← chunk;
                  Ret (if negb (bool_decide (text = "")) then [text] else []))
               (stream_items response) (stream_failure response)
         end
     end).

(** The streaming side of [BaseLLMProvider]. *)
Class LLMStreamProvider (P : Type) := {
  stream_response : P → list Message → option string → Generator
}.

(** A provider as [chat_stream] uses it: one of the four adapters with the
    streaming entry point of its client. *)
Inductive StreamAdapter :=
  | OpenAIStream (self : BaseFields) (client : StreamChatClient)
  | ClaudeStream (self : BaseFields) (client : StreamAnthropicClient)
  | GeminiStream (self : BaseFields) (client : StreamGeminiClient)
  | HuggingFaceStream (self : BaseFields) (client : StreamChatClient).

Definition adapter_stream_response (p : StreamAdapter) (messages : list Message)
    (system_prompt : option string) : list string :=
  match p with
  | OpenAIStream self client =>
      OpenAIProvider_stream_response self client messages system_prompt
  | ClaudeStream self client =>
      ClaudeProvider_stream_response self client messages system_prompt
  | GeminiStream self client =>
      GeminiProvider_stream_response self client messages system_prompt
  | HuggingFaceStream self client =>
      HuggingFaceProvider_stream_response self client messages system_prompt
  end.

#[global] Instance StreamAdapter_LLMStreamProvider : LLMStreamProvider StreamAdapter := {
  stream_response p messages system_prompt :=
    (adapter_stream_response p messages system_prompt, None)
}.

(** A server-sent event as [chat_stream] frames it. *)
Definition sse (payload : string) : string := "data: " +:+ payload +:+ nl +:+ nl.

Section ChatStream.
Context {P : Type} `{LLMStreamProvider P}.
Variable validator : string → option string → exn unit.
Variable make_retriever : exn VectorStore.
Variable system_prompt : string.

(** The generator [generate] inside [chat_stream]: the events it yields. *)
Definition chat_stream_generate (factory : LLMFactory P) (request : ChatRequest)
  : list string :=
  match make_retriever with
  | Raise e => [sse ("Error: " +:+ e)]
  | Ret vector_store =>
      match retrieve_context vector_store (message request) 4 with
      | Raise e => [sse ("Error: " +:+ e)]
      | Ret context_data =>
          let messages := chat_stream_messages request context_data in
          match chat_stream_provider factory request with
          | None => [sse "Error: No provider available"]
          | Some provider =>
              let '(tokens, exc) :=
                stream_response provider messages (Some system_prompt) in
              map sse tokens
              ++ match exc with
                 | None => [sse "[DONE]"]
                 | Some e => [sse ("Error: " +:+ e)]
                 end
          end
      end
  end.

(** The endpoint [chat_stream]: the body of the streaming response. *)
Definition chat_stream (factory : LLMFactory P) (request : ChatRequest)
  : http (list string) :=
  match validator (message request) (session_id request) with
  | Raise e => HTTPException 500 e
  | Ret _ => Ok (chat_stream_generate factory request)
  end.

End ChatStream.

(** The text a completion chunk carries: the content of its first choice. *)
Definition chunk_text (chunk : CompletionChunk) : string :=
  match chunk with
  | Some text :: _ => text
  | _ => ""
  end.

(** [''.join(fragments)] *)
Definition str_concat (fragments : list string) : string :=
  foldr String.append "" fragments.

(** A streaming client that fails after two chunks. *)
Definition demo_stream_client : StreamChatClient :=
  λ _ _ _, Ret {| stream_items := [[Some "Refunds "]; [Some ""]; [None]; [Some "take"]];
                  stream_failure := Some "Connection reset" |}.

Definition demo_base : BaseFields :=
  {| api_key := "key"; base_model := "gpt-4o-mini"; max_tokens := 1000; timeout := 30 |}.

Definition demo_stream_factory : LLMFactory StreamAdapter :=
  {| config := demo_config true;
     _providers := <["openai" := OpenAIStream demo_base demo_stream_client]> ∅ |}.

(** ** The vector store ([vector_db/store.py]) *)

(** [VectorStore.search(query, k)]: [similarity_search] is the index;
    [config_k] is [config.vector_db.search.k]. *)
Definition VectorStore_search (config_k : nat)
    (similarity_search : string → nat → exn (list Document)) : VectorStore :=
  λ query k,
    let k := if bool_decide (k = 0) then config_k else k in
    try_except (similarity_search query k) (λ _, Ret []).

(** The session id [chat] works with. *)
Definition chat_session_id (clock : Clock) (request : ChatRequest) : string :=
  if truthy (session_id request) then py_str (session_id request)
  else "session_" +:+ str_take 12 (uuid4_hex clock 0).

(** The two entries [chat] appends for one exchange. *)
Definition turn_entries (clock : Clock) (request : ChatRequest)
    (llm_response : LLMResponse) : list HistoryEntry :=
  [ {| entry_id := "msg_" +:+ str_take 8 (uuid4_hex clock 1);
       entry_role := "user";
       entry_content := Some (message request);
       entry_timestamp := now_isoformat clock 1;
       entry_provider := None |};
    {| entry_id := "msg_" +:+ str_take 8 (uuid4_hex clock 2);
       entry_role := "assistant";
       entry_content := content llm_response;
       entry_timestamp := now_isoformat clock 2;
       entry_provider := Some (provider llm_response) |} ].

(** The session as it is before an exchange: the stored one, or a new one. *)
Definition session_before (conversations : gmap string Session) (sid : string)
    (clock : Clock) : Session :=
  default {| created_at := now_isoformat clock 0; history := []; message_count := 0 |}
          (conversations !! sid).

(** A stored session holds two history entries per counted exchange. *)
Definition session_consistent (s : Session) : Prop :=
  length (history s) = 2 * message_count s.

(** ** Session expiry ([cleanup_old_sessions]) *)

Section Cleanup.
(** [datetime.fromisoformat] as a point on the local time line, in
    microseconds; it raises on a string that is no timestamp (a timestamp
    that cannot be subtracted from [datetime.now()] counts as raising: both
    happen in the same iteration under the same handler). *)
Variable fromisoformat : string → exn Z.

(** [(current_time - created_at).total_seconds() > 86400] *)
Definition older_than_a_day (current_time created : Z) : bool :=
  bool_decide (86400 * 1000000 < current_time - created)%Z.

(** The first loop of [cleanup_old_sessions], over [conversations.items()]. *)
Fixpoint collect_expired (current_time : Z) (items : list (string * Session))
  : exn (list string) :=
  match items with
  | [] => Ret []
  | (session_id, data) :: rest =>
      created ← fromisoformat (created_at data);
      expired ← collect_expired current_time rest;
      Ret (if older_than_a_day current_time created
           then session_id :: expired else expired)
  end.

(** [cleanup_old_sessions]: [current_time] is [datetime.now()]. An exception
    is logged and ends the task before anything is deleted. *)
Definition cleanup_old_sessions (current_time : Z)
    (conversations : gmap string Session) : gmap string Session :=
  match collect_expired current_time (map_to_list conversations) with
  | Raise _ => conversations
  | Ret expired => foldl (λ m session_id, delete session_id m) conversations expired
  end.

(** The server runs the background tasks of a request after it has sent the
    response; [current_time] is the clock then. *)
Definition run_background_tasks (current_time : Z) (tasks : list BackgroundTask)
    (conversations : gmap string Session) : gmap string Session :=
  foldl (λ m task,
           match task with
           | cleanup_old_sessions_task => cleanup_old_sessions current_time m
           end) conversations tasks.

(** [conversations] once a request to [chat] is fully served. A handler
    that raises gets its response from the exception handler, which runs no
    background task. *)
Definition conversations_served (current_time : Z) (out : ChatOutcome)
  : gmap string Session :=
  match result out with
  | Ok _ =>
      run_background_tasks current_time (background_tasks out) (conversations_after out)
  | HTTPException _ _ => conversations_after out
  end.

End Cleanup.

(** Timestamps written as a number of seconds, for the examples. *)
Definition demo_fromisoformat (s : string) : exn Z :=
  if decide (s = "day-1") then Ret 0%Z
  else if decide (s = "day-3") then Ret (2 * 86400 * 1000000)%Z
  else Raise ("Invalid isoformat string: '" +:+ s +:+ "'").

Definition demo_conversations : gmap string Session :=
  <["old" := {| created_at := "day-1"; history := []; message_count := 0 |}]>
    (<["new" := {| created_at := "day-3"; history := []; message_count := 0 |}]> ∅).

(** ** Input validation ([utils/validators.py]) *)

(** The character class [[a-zA-Z0-9_-]]. *)
Definition is_session_char (c : ascii) : bool :=
  let n := nat_of_ascii c in
  ((97 <=? n) && (n <=? 122)) || ((65 <=? n) && (n <=? 90))
  || ((48 <=? n) && (n <=? 57)) || (n =? 95) || (n =? 45).

(** [re.match(r'^[a-zA-Z0-9_-]+$', v)] once a first character has matched:
    the class is repeated greedily and [$] matches at the end of the string
    or just before a line feed that ends it. *)
Fixpoint match_session_rest (s : string) : bool :=
  match s with
  | EmptyString => true
  | String c rest =>
      if is_session_char c then match_session_rest rest
      else bool_decide (c = ascii_of_nat 10) && bool_decide (rest = "")
  end.

Definition match_session_id (s : string) : bool :=
  match s with
  | String c rest => is_session_char c && match_session_rest rest
  | EmptyString => false
  end.

(** [ChatMessageValidator.validate_session_id] *)
Definition validate_session_id (v : option string) : exn (option string) :=
  if truthy v && negb (match_session_id (py_str v))
  then Raise "Invalid session ID format"
  else Ret v.

(** [sub in s] *)
Fixpoint str_contains (sub s : string) : bool :=
  str_prefix sub s
  || match s with
     | String _ rest => str_contains sub rest
     | EmptyString => false
     end.

(** [s.endswith(suffix)] *)
Definition str_endswith (suffix s : string) : bool :=
  (String.length suffix <=? String.length s)
  && bool_decide (str_drop (String.length s - String.length suffix) s = suffix).

(** [FileUploadValidator.validate_filename]. [lower] is taken on the ASCII
    range: no character outside it lower-cases to a letter of one of the
    four extensions. *)
Definition validate_filename (v : string) : exn string :=
  if str_contains ".." v || str_contains "/" v || str_contains "\" v
  then Raise "Invalid filename"
  else if negb (existsb (λ ext, str_endswith ext (str_lower v))
                        [".pdf"; ".docx"; ".txt"; ".md"])
  then Raise "Unsupported file type"
  else Ret v.

(** Every character of [s] satisfies [f]. *)
Fixpoint str_forall (f : ascii → bool) (s : string) : bool :=
  match s with
  | EmptyString => true
  | String c rest => f c && str_forall f rest
  end.

(** A hexadecimal digit as [uuid4().hex] writes it. *)
Definition is_hex_digit (c : ascii) : bool :=
  let n := nat_of_ascii c in
  ((48 <=? n) && (n <=? 57)) || ((97 <=? n) && (n <=? 102)).

(** [sub] occurs nowhere in [s]. *)
Definition occurs_in (sub s : string) : Prop :=
  ∃ pre post, s = pre +:+ sub +:+ post.

(** The history entry the Gemini adapter makes of an earlier message. *)
Definition gemini_entry (msg : Message) : string * list string :=
  (if bool_decide (msg_role msg = "user") then "user" else "model",
   [msg_content msg]).

(** A Gemini client that answers with the prompt it was sent, preceded by
    the number of history entries. *)
Definition echo_gemini_client : GeminiClient :=
  λ chat_history text _,
    Ret {| reply_text := Ret (str_of_nat (length chat_history) +:+ ":" +:+ text) |}.

(** A provider that answers with the text of all the messages it is given,
    in one piece or as one fragment per message: a test double for both
    sides of the provider contract, which shows what reached it. *)
Inductive EchoProvider := echo_provider.

#[global] Instance EchoProvider_LLMProvider : LLMProvider EchoProvider := {
  generate_response _ messages _ :=
    Ret {| content := Some (str_concat (map msg_content messages));
           model := "echo";
           provider := "echo";
           tokens_used := None;
           finish_reason := Some "stop";
           error := None |}
}.

#[global] Instance EchoProvider_LLMStreamProvider : LLMStreamProvider EchoProvider := {
  stream_response _ messages _ := (map msg_content messages, None)
}.

Definition echo_factory : LLMFactory EchoProvider :=
  {| config := demo_config true;
     _providers := <["openai" := echo_provider]> ∅ |}.

(** An OpenAI backend whose reply carries no content, as when the answer is
    withheld by the content filter. *)
Definition null_content_client : ChatClient :=
  λ _ _ _,
    Ret {| choices := [{| choice_content := None;
                          choice_finish_reason := Some "content_filter" |}];
           usage_total_tokens := Some 12 |}.

Definition null_content_factory : LLMFactory Provider :=
  {| config := demo_config true;
     _providers := <["openai" := OpenAIProvider demo_base null_content_client]> ∅ |}.

(** A clock whose timestamps [demo_fromisoformat] reads. *)
Definition day3_clock : Clock :=
  {| uuid4_hex := λ _, "0123456789abcdef0123456789abcdef";
     now_isoformat := λ _, "day-3" |}.

(** * Verification *)

(** ** Candidate order *)

Lemma available_spec {P} (self : LLMFactory P) (name : string) :
  available self name = true ↔ is_Some (_providers self !! name).
Proof. unfold available. apply bool_decide_eq_true. Qed.

Lemma filter_dedup_first (Q : string → Prop) `{!∀ x, Decision (Q x)} (l : list string) :
  filter Q (dedup_first l) = dedup_first (filter Q l).
Proof.
  induction l as [|x l IH]; [done|].
  cbn [dedup_first]. rewrite !filter_cons.
  destruct (decide (Q x)) as [Hx|Hx].
  - cbn [dedup_first]. f_equal. rewrite <- IH.
    rewrite !list_filter_filter. apply list_filter_iff. intuition congruence.
  - rewrite <- IH. rewrite list_filter_filter.
    apply list_filter_iff. intros y. split; [intuition congruence|].
    intros Hy. split; [done|]. intros ->. done.
Qed.

Lemma extend_with_fallback_spec {P} (self : LLMFactory P) (order acc : list string) :
  extend_with_fallback self order acc =
  acc ++ dedup_first
           (filter (λ n, is_Some (_providers self !! n) ∧ n ∉ acc) order).
Proof.
  revert acc. induction order as [|n order IH]; intros acc.
  - cbn. by rewrite app_nil_r.
  - cbn [extend_with_fallback]. rewrite filter_cons.
    destruct (decide (is_Some (_providers self !! n) ∧ n ∉ acc)) as [[Hav Hn]|Hno].
    + rewrite (proj2 (available_spec self n) Hav).
      rewrite bool_decide_eq_false_2 by done. cbn [negb andb].
      rewrite IH. rewrite <- app_assoc. cbn [app dedup_first]. do 2 f_equal.
      rewrite filter_dedup_first, list_filter_filter.
      f_equal. apply list_filter_iff. intros y.
      rewrite not_elem_of_app, list_elem_of_singleton. intuition congruence.
    + replace (negb (bool_decide (n ∈ acc)) && available self n) with false; [apply IH|].
      symmetry. apply andb_false_iff.
      destruct (decide (n ∈ acc)) as [Hin|Hnin].
      * left. by rewrite bool_decide_eq_true_2.
      * right. apply not_true_is_false. rewrite available_spec. intuition congruence.
Qed.

Lemma preferred_head_spec {P} (self : LLMFactory P) (preferred : option string) :
  (if truthy preferred && available self (py_str preferred)
   then [py_str preferred] else [])
  = match preferred with
    | Some p => if decide (p ≠ "" ∧ is_Some (_providers self !! p)) then [p] else []
    | None => []
    end.
Proof.
  destruct preferred as [p|]; [|done]. cbn [truthy py_str].
  destruct (decide (p = "")) as [->|Hp].
  - rewrite bool_decide_eq_true_2 by done. cbn. by rewrite decide_False by (intuition congruence).
  - rewrite bool_decide_eq_false_2 by done. cbn [negb andb].
    destruct (decide (is_Some (_providers self !! p))) as [Hav|Hav].
    + rewrite (proj2 (available_spec self p) Hav). by rewrite decide_True.
    + rewrite decide_False by (intuition congruence).
      destruct (available self p) eqn:E; [|done].
      apply available_spec in E. done.
Qed.

Lemma providers_to_try_fallback {P} (self : LLMFactory P) (preferred : option string) :
  enable_fallback (config self) = true →
  providers_to_try self preferred = spec_candidates self preferred.
Proof.
  intros Hfb. unfold providers_to_try, spec_candidates. rewrite Hfb.
  rewrite preferred_head_spec, extend_with_fallback_spec.
  destruct preferred as [p|]; cbn [app].
  - destruct (decide (p ≠ "" ∧ is_Some (_providers self !! p))) as [Hp|Hp]; cbn [app dedup_first].
    + f_equal. rewrite filter_dedup_first, list_filter_filter. f_equal.
      apply list_filter_iff. intros y. rewrite list_elem_of_singleton. intuition congruence.
    + f_equal. apply list_filter_iff. intros y. rewrite elem_of_nil. intuition congruence.
  - f_equal. apply list_filter_iff. intros y. rewrite elem_of_nil. intuition congruence.
Qed.

(** C2: with fallback enabled the trial order is the preferred provider, if
    specified and available, followed by the configured fallback order
    restricted to the available providers, without duplicates; with preferred
    B, fallback order A, B, C and all three available it is B, A, C. *)
Theorem C2_candidate_order {P} (self : LLMFactory P) (preferred : option string) :
  enable_fallback (config self) = true →
  providers_to_try self preferred = spec_candidates self preferred
  ∧ (preferred = Some "B" →
     fallback_order (config self) = ["A"; "B"; "C"] →
     is_Some (_providers self !! "A") →
     is_Some (_providers self !! "B") →
     is_Some (_providers self !! "C") →
     providers_to_try self preferred = ["B"; "A"; "C"]).
Proof.
  intros Hfb. split; [by apply providers_to_try_fallback|].
  intros -> Horder HA HB HC.
  rewrite providers_to_try_fallback by done.
  unfold spec_candidates. rewrite Horder.
  rewrite decide_True by done.
  rewrite !filter_cons, filter_nil. rewrite !decide_True by done.
  reflexivity.
Qed.

Lemma C2_candidate_order_witness :
  enable_fallback (config (abc_factory true)) = true
  ∧ providers_to_try (abc_factory true) (Some "B") = ["B"; "A"; "C"].
Proof.
  split; [reflexivity|].
  apply (C2_candidate_order (abc_factory true) (Some "B") eq_refl);
    first [reflexivity | by eexists].
Defined.

Lemma C4_counterexample :
  enable_fallback (config (abc_factory false)) = false
  ∧ is_Some (_providers (abc_factory false)
             !! default_provider (config (abc_factory false)))
  ∧ providers_to_try (abc_factory false) (Some "D") = []
  ∧ providers_to_try (abc_factory false) (Some "D")
    ≠ [default_provider (config (abc_factory false))].
Proof. split; [done|]. split; [by eexists|]. split; [reflexivity|]. by vm_compute. Qed.

(** C4 (amended): with fallback disabled the candidate list has at most one
    element; when a preferred provider is specified the list is that
    provider alone if it is available and is empty otherwise: the default
    provider is not substituted for an unavailable preferred one. *)
Theorem C4_fallback_disabled {P} (self : LLMFactory P) (preferred : option string) :
  enable_fallback (config self) = false →
  length (providers_to_try self preferred) ≤ 1
  ∧ (∀ p, preferred = Some p → p ≠ "" →
       providers_to_try self preferred =
       if decide (is_Some (_providers self !! p)) then [p] else []).
Proof.
  intros Hfb. unfold providers_to_try. rewrite Hfb, preferred_head_spec. split.
  - destruct preferred as [p|]; [|cbn; lia]. case_decide; cbn; lia.
  - intros p -> Hp.
    destruct (decide (is_Some (_providers self !! p))) as [Hav|Hav].
    + by rewrite decide_True.
    + by rewrite decide_False by (intuition congruence).
Qed.

Lemma C4_fallback_disabled_witness :
  enable_fallback (config (abc_factory false)) = false
  ∧ providers_to_try (abc_factory false) (Some "B") = ["B"]
  ∧ providers_to_try (abc_factory false) (Some "D") = [].
Proof.
  split; [reflexivity|]. split.
  - apply (proj2 (C4_fallback_disabled (abc_factory false) (Some "B") eq_refl) "B");
      [reflexivity | discriminate].
  - reflexivity.
Defined.

(** The streaming endpoint, by contrast, falls back to the default provider
    when the request names none. *)
Example chat_stream_uses_default :
  providers_to_try (demo_factory false) None = []
  ∧ chat_stream_provider (demo_factory false) demo_request
    = _providers (demo_factory false) !! "openai"
  ∧ is_Some (chat_stream_provider (demo_factory false) demo_request).
Proof. split; [reflexivity|]. split; [reflexivity|]. vm_compute. by eexists. Qed.

(** ** The trial loop *)

Lemma extend_with_fallback_available {P} (self : LLMFactory P) (order acc : list string) :
  Forall (λ n, is_Some (_providers self !! n)) acc →
  Forall (λ n, is_Some (_providers self !! n)) (extend_with_fallback self order acc).
Proof.
  revert acc. induction order as [|n order IH]; intros acc Hacc; [done|].
  cbn [extend_with_fallback].
  destruct (negb (bool_decide (n ∈ acc)) && available self n) eqn:E; [|by apply IH].
  apply andb_true_iff in E as [_ Hav]. apply available_spec in Hav.
  apply IH. apply Forall_app. split; [done|]. by apply Forall_singleton.
Qed.

Lemma providers_to_try_available {P} (self : LLMFactory P) (preferred : option string) :
  Forall (λ n, is_Some (_providers self !! n)) (providers_to_try self preferred).
Proof.
  unfold providers_to_try.
  assert (Forall (λ n, is_Some (_providers self !! n))
            (if truthy preferred && available self (py_str preferred)
             then [py_str preferred] else [])) as Hhead.
  { destruct (truthy preferred && available self (py_str preferred)) eqn:E; [|done].
    apply andb_true_iff in E as [_ Hav]. apply available_spec in Hav.
    by apply Forall_singleton. }
  destruct (enable_fallback (config self)); [|done].
  by apply extend_with_fallback_available.
Qed.

Lemma tried_app (l1 l2 : list LogRecord) : tried (l1 ++ l2) = tried l1 ++ tried l2.
Proof. unfold tried. apply omap_app. Qed.

Lemma tried_trying (name : string) :
  tried [LogInfo ("Trying provider: " +:+ name)] = [name].
Proof. reflexivity. Qed.

Section TrialLoop.
Context {P : Type} `{LLMProvider P}.
Variable self : LLMFactory P.
Variable messages : list Message.
Variable system_prompt : option string.

Lemma last_recorded_cons (init : option string) (n : string) (rest : list string) :
  last_recorded self messages system_prompt init (n :: rest) =
  last_recorded self messages system_prompt
    (recorded (attempt self messages system_prompt n)) rest.
Proof.
  unfold last_recorded. rewrite last_cons. by destruct (last rest).
Qed.

(** One failed candidate: its error replaces [last_error] and the loop
    goes on with the remaining candidates. *)
Lemma try_providers_step_failed (n : string) (rest : list string)
    (le : option string) (log : list LogRecord) :
  is_Some (_providers self !! n) →
  failed (attempt self messages system_prompt n) →
  ∃ log',
    try_providers self messages system_prompt (n :: rest) le log =
    try_providers self messages system_prompt rest
      (recorded (attempt self messages system_prompt n)) (log ++ log')
    ∧ tried log' = [n].
Proof.
  intros [p Hp] Hfail. unfold attempt in *. cbn [try_providers]. rewrite Hp in *.
  destruct (generate_response p messages system_prompt) as [r|e]; cbn in Hfail.
  - unfold not_error. rewrite bool_decide_eq_true_2 by done. cbn [negb recorded].
    eexists [_; _]. rewrite <- app_assoc. split; [reflexivity|reflexivity].
  - eexists [_; _]. rewrite <- app_assoc. split; [reflexivity|reflexivity].
Qed.

Lemma try_providers_failed (pre rest : list string)
    (le : option string) (log : list LogRecord) :
  Forall (λ n, is_Some (_providers self !! n)) pre →
  Forall (λ n, failed (attempt self messages system_prompt n)) pre →
  ∃ log',
    try_providers self messages system_prompt (pre ++ rest) le log =
    try_providers self messages system_prompt rest
      (last_recorded self messages system_prompt le pre) (log ++ log')
    ∧ tried log' = pre.
Proof.
  revert le log. induction pre as [|n pre IH]; intros le log Hav Hfail.
  - exists []. by rewrite app_nil_r.
  - apply Forall_cons in Hav as [Hn Hav]. apply Forall_cons in Hfail as [Hfn Hfail].
    destruct (try_providers_step_failed n (pre ++ rest) le log Hn Hfn)
      as (log1 & Hstep & Htried1).
    destruct (IH (recorded (attempt self messages system_prompt n))
                 (log ++ log1) Hav Hfail) as (log2 & Hrest & Htried2).
    exists (log1 ++ log2). cbn [app]. rewrite Hstep, Hrest.
    rewrite last_recorded_cons, <- app_assoc. split; [done|].
    by rewrite tried_app, Htried1, Htried2.
Qed.

Lemma try_providers_success (c : string) (post : list string) (r : LLMResponse)
    (le : option string) (log : list LogRecord) :
  is_Some (_providers self !! c) →
  succeeds_with (attempt self messages system_prompt c) r →
  ∃ log',
    try_providers self messages system_prompt (c :: post) le log =
    mkLoopState (Some r) le (log ++ log')
    ∧ tried log' = [c].
Proof.
  intros [p Hp] [Hret Hok]. unfold attempt in Hret. cbn [try_providers].
  rewrite Hp in *. rewrite Hret. unfold not_error.
  rewrite bool_decide_eq_false_2 by done. cbn [negb].
  eexists [_; _]. rewrite <- app_assoc. split; reflexivity.
Qed.

End TrialLoop.

Section Fallback.
Context {P : Type} `{LLMProvider P}.
Variable self : LLMFactory P.
Variable messages : list Message.
Variable system_prompt : option string.

Lemma failed_dec (o : exn LLMResponse) : {failed o} + {¬ failed o}.
Proof. destruct o as [r|e]; cbn; [apply (decide _) | by left]. Qed.

(** Either every candidate fails, or there is a first one that succeeds. *)
Lemma first_success_or_all_failed (names : list string) :
  Forall (λ n, failed (attempt self messages system_prompt n)) names
  ∨ ∃ pre c post r,
      names = pre ++ c :: post
      ∧ Forall (λ n, failed (attempt self messages system_prompt n)) pre
      ∧ succeeds_with (attempt self messages system_prompt c) r.
Proof.
  induction names as [|n names IH]; [by left|].
  destruct (failed_dec (attempt self messages system_prompt n)) as [Hf|Hs].
  - destruct IH as [Hall|(pre & c & post & r & -> & Hpre & Hc)].
    + left. by constructor.
    + right. exists (n :: pre), c, post, r. split; [done|]. split; [by constructor|done].
  - right. destruct (attempt self messages system_prompt n) as [r|e] eqn:E; [|by destruct Hs].
    exists [], n, names, r. split; [done|]. split; [by constructor|].
    split; [by rewrite E|done].
Qed.

Lemma generate_with_fallback_success (preferred : option string)
    (pre post : list string) (c : string) (r : LLMResponse) :
  providers_to_try self preferred = pre ++ c :: post →
  Forall (λ n, failed (attempt self messages system_prompt n)) pre →
  succeeds_with (attempt self messages system_prompt c) r →
  ∃ log',
    try_providers self messages system_prompt (providers_to_try self preferred) None []
    = mkLoopState (Some r) (last_recorded self messages system_prompt None pre) log'
    ∧ tried log' = pre ++ [c].
Proof.
  intros Hcands Hpre Hc.
  pose proof (providers_to_try_available self preferred) as Hav.
  rewrite Hcands in *. apply Forall_app in Hav as [Hav_pre Hav_c].
  apply Forall_cons in Hav_c as [Hav_c _].
  destruct (try_providers_failed self messages system_prompt pre (c :: post)
              None [] Hav_pre Hpre) as (log1 & -> & Ht1).
  destruct (try_providers_success self messages system_prompt c post r
              (last_recorded self messages system_prompt None pre)
              ([] ++ log1) Hav_c Hc) as (log2 & -> & Ht2).
  eexists. split; [reflexivity|].
  by rewrite !tried_app, Ht1, Ht2.
Qed.

Lemma generate_with_fallback_all_failed (preferred : option string) :
  Forall (λ n, failed (attempt self messages system_prompt n))
         (providers_to_try self preferred) →
  ∃ log',
    try_providers self messages system_prompt (providers_to_try self preferred) None []
    = mkLoopState None
        (last_recorded self messages system_prompt None
           (providers_to_try self preferred)) log'
    ∧ tried log' = providers_to_try self preferred.
Proof.
  intros Hall.
  pose proof (providers_to_try_available self preferred) as Hav.
  destruct (try_providers_failed self messages system_prompt
              (providers_to_try self preferred) [] None [] Hav Hall)
    as (log1 & Heq & Ht1).
  rewrite app_nil_r in Heq. rewrite Heq. cbn [try_providers].
  eexists. split; [reflexivity|]. by rewrite tried_app, Ht1.
Qed.

(** C1: the candidates are tried strictly in order; every candidate before
    the first success raised or returned an error result, the error of
    each replaced [last_error] in turn, and the result of the first
    candidate whose [finish_reason] is not ["error"] is returned without
    trying the candidates after it. *)
Theorem C1_first_success_wins (preferred : option string)
    (pre post : list string) (c : string) (r : LLMResponse) :
  providers_to_try self preferred = pre ++ c :: post →
  Forall (λ n, failed (attempt self messages system_prompt n)) pre →
  succeeds_with (attempt self messages system_prompt c) r →
  generate_with_fallback self messages system_prompt preferred = r
  ∧ tried (snd (generate_with_fallback_logged self messages system_prompt preferred))
    = pre ++ [c]
  ∧ last_error (try_providers self messages system_prompt
                  (providers_to_try self preferred) None [])
    = last_recorded self messages system_prompt None pre.
Proof.
  intros Hcands Hpre Hc.
  destruct (generate_with_fallback_success preferred pre post c r Hcands Hpre Hc)
    as (log' & Hrun & Htried).
  unfold generate_with_fallback, generate_with_fallback_logged.
  rewrite Hrun. cbn. done.
Qed.

(** C3: when the candidate list is empty or every candidate fails, the
    result is the synthetic one: provider ["none"], finish reason
    ["error"], the apology as content, and the error
    ["All providers failed. Last error: "] followed by the last recorded
    error ([None] when no candidate was tried). *)
Theorem C3_all_providers_failed (preferred : option string) :
  Forall (λ n, failed (attempt self messages system_prompt n))
         (providers_to_try self preferred) →
  generate_with_fallback self messages system_prompt preferred =
    {| content := Some "I apologize, but I'm currently unable to process your request. Please try again later.";
       model := "unknown";
       provider := "none";
       tokens_used := None;
       finish_reason := Some "error";
       error := Some ("All providers failed. Last error: "
                      +:+ py_str (last_recorded self messages system_prompt None
                                    (providers_to_try self preferred))) |}
  ∧ tried (snd (generate_with_fallback_logged self messages system_prompt preferred))
    = providers_to_try self preferred
  ∧ (providers_to_try self preferred = [] →
     error (generate_with_fallback self messages system_prompt preferred)
     = Some "All providers failed. Last error: None").
Proof.
  intros Hall.
  destruct (generate_with_fallback_all_failed preferred Hall) as (log' & Hrun & Htried).
  unfold generate_with_fallback, generate_with_fallback_logged.
  rewrite Hrun. cbn [returned last_error log fst snd].
  split; [done|]. split.
  - rewrite tried_app, Htried. cbn. by rewrite app_nil_r.
  - intros ->. done.
Qed.

End Fallback.

Lemma C1_first_success_wins_witness :
  providers_to_try (demo_factory true) None = ["openai"] ++ "claude" :: ["gemini"]
  ∧ generate_with_fallback (demo_factory true) demo_messages (Some "Be brief.") None
    = demo_claude_response
  ∧ tried (snd (generate_with_fallback_logged (demo_factory true) demo_messages
                  (Some "Be brief.") None))
    = ["openai"; "claude"].
Proof.
  assert (providers_to_try (demo_factory true) None
          = ["openai"] ++ "claude" :: ["gemini"]) as Hc by (vm_compute; reflexivity).
  split; [exact Hc|].
  destruct (C1_first_success_wins (demo_factory true) demo_messages (Some "Be brief.")
              None ["openai"] ["gemini"] "claude" demo_claude_response Hc)
    as (Hr & Ht & _).
  - apply Forall_singleton. vm_compute. reflexivity.
  - split; by vm_compute.
  - split; [exact Hr|exact Ht].
Defined.

Lemma C3_all_providers_failed_witness :
  Forall (λ n, failed (attempt (demo_factory false) demo_messages None n))
         (providers_to_try (demo_factory false) (Some "openai"))
  ∧ provider (generate_with_fallback (demo_factory false) demo_messages None
                (Some "openai")) = "none"
  ∧ error (generate_with_fallback (demo_factory false) demo_messages None
             (Some "openai"))
    = Some "All providers failed. Last error: generate_response failed: Connection error.".
Proof.
  assert (Forall (λ n, failed (attempt (demo_factory false) demo_messages None n))
            (providers_to_try (demo_factory false) (Some "openai"))) as Hall.
  { replace (providers_to_try (demo_factory false) (Some "openai"))
      with ["openai"] by (vm_compute; reflexivity).
    apply Forall_singleton. vm_compute. reflexivity. }
  split; [exact Hall|].
  destruct (C3_all_providers_failed (demo_factory false) demo_messages None
              (Some "openai") Hall) as (Hr & _ & _).
  rewrite Hr. split; [reflexivity|]. vm_compute. reflexivity.
Defined.

(** ** The adapters *)

Ltac unfold_adapter :=
  unfold generate_response, Provider_LLMProvider, adapter_generate_response,
    generate_body, try_except, _handle_error, mbind, exn_bind, mret, exn_ret,
    index0, index_last in *.

Lemma provider_id_cases (p : Provider) :
  provider_id p ∈ ["openai"; "claude"; "gemini"; "huggingface"].
Proof. destruct p; apply (bool_decide_unpack _); by vm_compute. Qed.

Lemma adapter_result_provider (p : Provider) (messages : list Message)
    (system_prompt : option string) (r : LLMResponse) :
  generate_response p messages system_prompt = Ret r → provider r = provider_id p.
Proof.
  destruct p as [self client|self client|self client|self client]; unfold_adapter.
  - destruct (client _ _ _) as [resp|e]; [destruct (choices resp)|];
      intros [= <-]; reflexivity.
  - destruct (client _ _ _ _) as [resp|e]; [destruct (content_blocks resp)|];
      intros [= <-]; reflexivity.
  - destruct (last messages);
      [destruct (client _ _ _) as [resp|e]; [destruct (reply_text resp)|]|];
      intros [= <-]; reflexivity.
  - destruct (client _ _ _) as [resp|e]; [destruct (choices resp)|];
      intros [= <-]; reflexivity.
Qed.

(** C5: an adapter's [generate_response] always returns a result and never
    raises; when the call to the backend or the reading of its reply fails
    with an exception [e], the result has finish reason ["error"], the error
    ["generate_response failed: " + str(e)] and the apology as content. *)
Theorem C5_adapter_never_raises (p : Provider) (messages : list Message)
    (system_prompt : option string) :
  ∃ r, generate_response p messages system_prompt = Ret r
       ∧ ∀ e, generate_body p messages system_prompt = Raise e →
              finish_reason r = Some "error"
              ∧ error r = Some ("generate_response failed: " +:+ e)
              ∧ content r
                = Some "I apologize, but I encountered an error processing your request. Please try again.".
Proof.
  unfold generate_response, Provider_LLMProvider, adapter_generate_response, try_except.
  destruct (generate_body p messages system_prompt) as [r|e'].
  - exists r. split; [done|]. intros e [=].
  - eexists. split; [reflexivity|]. intros e [= ->]. done.
Qed.

(** Kinds of underlying failure, each ending in an error result. *)
Lemma openai_backend_failure (self : BaseFields) (client : ChatClient)
    (messages : list Message) (system_prompt : option string) (e : string) :
  client (base_model self) (format_messages messages system_prompt) (max_tokens self)
  = Raise e →
  generate_body (OpenAIProvider self client) messages system_prompt = Raise e.
Proof. intros Hc. cbn. by rewrite Hc. Qed.

Lemma openai_malformed_reply (self : BaseFields) (client : ChatClient)
    (messages : list Message) (system_prompt : option string) (u : option nat) :
  client (base_model self) (format_messages messages system_prompt) (max_tokens self)
  = Ret {| choices := []; usage_total_tokens := u |} →
  generate_body (OpenAIProvider self client) messages system_prompt
  = Raise "list index out of range".
Proof. intros Hc. cbn. by rewrite Hc. Qed.

(** ** The registry built at start-up *)

Lemma new_provider_id (sdk : SDK) (cls : ProviderClass) (key : string)
    (pc : ProviderConfig) (p : Provider) (name : string) :
  dict_get PROVIDERS name = Some cls →
  new_provider sdk cls key pc = Ret p →
  provider_id p = name.
Proof.
  intros Hcls Hnew. cbn in Hcls. unfold new_provider, mbind, exn_bind in Hnew.
  repeat case_decide; simplify_eq;
    destruct (bool_decide (key = "")); try discriminate;
    match type of Hnew with
    | context [match ?x with _ => _ end] => destruct x; simplify_eq
    end; reflexivity.
Qed.

Lemma initialize_provider_id (cfg : LLMConfig) (getenv : string → option string)
    (sdk : SDK) (registry : gmap string Provider) (item : string * ProviderConfig) :
  (∀ n p, registry !! n = Some p → provider_id p = n) →
  ∀ n p, initialize_provider cfg getenv sdk registry item !! n = Some p →
         provider_id p = n.
Proof.
  intros Hreg n p. destruct item as [name pc]. unfold initialize_provider.
  destruct (negb (enabled pc)); [apply Hreg|].
  destruct (negb (truthy (get_provider_api_key cfg getenv name))); [apply Hreg|].
  destruct (dict_get PROVIDERS name) as [cls|] eqn:Hcls; [|apply Hreg].
  destruct (new_provider sdk cls _ pc) as [q|e] eqn:Hnew; [|apply Hreg].
  destruct (decide (name = n)) as [->|Hne].
  - rewrite lookup_insert_eq. intros [= <-]. by eapply new_provider_id.
  - rewrite lookup_insert_ne by done. apply Hreg.
Qed.

Lemma LLMFactory_init_id (cfg : LLMConfig) (getenv : string → option string)
    (sdk : SDK) (n : string) (p : Provider) :
  _providers (LLMFactory_init cfg getenv sdk) !! n = Some p → provider_id p = n.
Proof.
  cbn [LLMFactory_init _providers].
  assert (∀ items registry,
            (∀ n p, registry !! n = Some p → provider_id p = n) →
            ∀ n p, foldl (initialize_provider cfg getenv sdk) registry items !! n = Some p →
                   provider_id p = n) as Hfold.
  { induction items as [|item items IH]; intros registry Hreg; [exact Hreg|].
    cbn [foldl]. apply IH. by apply initialize_provider_id. }
  apply Hfold. intros n' p'. by rewrite lookup_empty.
Qed.

(** C8: the provider field of the result of [generate_with_fallback], for a
    registry built by the factory, is never empty; it is ["none"] when every
    candidate failed, and otherwise it is the name of the candidate that
    produced the result, the first one that did not fail. An adapter labels
    each of its results, error results included, with its own name. *)
Theorem C8_provider_identified (cfg : LLMConfig) (getenv : string → option string)
    (sdk : SDK) (messages : list Message) (system_prompt preferred : option string) :
  let self := LLMFactory_init cfg getenv sdk in
  let r := generate_with_fallback self messages system_prompt preferred in
  provider r ≠ ""
  ∧ ((provider r = "none"
      ∧ Forall (λ n, failed (attempt self messages system_prompt n))
               (providers_to_try self preferred))
     ∨ (∃ pre c post,
          providers_to_try self preferred = pre ++ c :: post
          ∧ Forall (λ n, failed (attempt self messages system_prompt n)) pre
          ∧ succeeds_with (attempt self messages system_prompt c) r
          ∧ provider r = c))
  ∧ (∀ (p : Provider) r',
       generate_response p messages system_prompt = Ret r' →
       provider r' = provider_id p
       ∧ provider_id p ∈ ["openai"; "claude"; "gemini"; "huggingface"]).
Proof.
  intros self r.
  assert ((provider r = "none"
           ∧ Forall (λ n, failed (attempt self messages system_prompt n))
                    (providers_to_try self preferred))
          ∨ (∃ pre c post,
               providers_to_try self preferred = pre ++ c :: post
               ∧ Forall (λ n, failed (attempt self messages system_prompt n)) pre
               ∧ succeeds_with (attempt self messages system_prompt c) r
               ∧ provider r = c)) as Hcases.
  { destruct (first_success_or_all_failed self messages system_prompt
                (providers_to_try self preferred))
      as [Hall|(pre & c & post & r0 & Hcands & Hpre & Hc)].
    - left. split; [|done].
      destruct (generate_with_fallback_all_failed self messages system_prompt
                  preferred Hall) as (log' & Hrun & _).
      subst r. unfold generate_with_fallback, generate_with_fallback_logged.
      by rewrite Hrun.
    - right. exists pre, c, post.
      destruct (generate_with_fallback_success self messages system_prompt
                  preferred pre post c r0 Hcands Hpre Hc) as (log' & Hrun & _).
      assert (r = r0) as ->.
      { subst r. unfold generate_with_fallback, generate_with_fallback_logged.
        by rewrite Hrun. }
      split; [done|]. split; [done|]. split; [done|].
      destruct Hc as [Hret _]. unfold attempt in Hret.
      destruct (_providers self !! c) as [p|] eqn:Hp; [|discriminate].
      rewrite (adapter_result_provider p messages system_prompt r0 Hret).
      by eapply LLMFactory_init_id. }
  split; [|split; [exact Hcases|]].
  - destruct Hcases as [[-> _]|(pre & c & post & _ & _ & [Hret _] & Hrc)]; [done|].
    unfold attempt in Hret.
    destruct (_providers self !! c) as [p|] eqn:Hp; [|discriminate].
    rewrite (adapter_result_provider p messages system_prompt r Hret).
    pose proof (provider_id_cases p) as Hid.
    intros Hempty. rewrite Hempty in Hid. revert Hid.
    apply (bool_decide_unpack _). by vm_compute.
  - intros p r' Hret. split; [by eapply adapter_result_provider|apply provider_id_cases].
Qed.

(** ** Retrieval *)

(** C6: [retrieve_context] always returns a value: when the search finds
    nothing, the context is ["No relevant information found."] and the
    sources are empty; when the search raises, the context is the error
    sentinel ["Error retrieving information."] and the sources are empty. *)
Theorem C6_retrieve_never_raises (vector_store : VectorStore) (query : string) (k : nat) :
  ∃ context_data,
    retrieve_context vector_store query k = Ret context_data
    ∧ (vector_store query k = Ret [] →
       context_data = {| context := "No relevant information found."; sources := [] |})
    ∧ (∀ e, vector_store query k = Raise e →
       context_data = {| context := "Error retrieving information."; sources := [] |}).
Proof.
  unfold retrieve_context, retrieve_body, try_except, mbind, exn_bind.
  destruct (vector_store query k) as [[|doc results]|e].
  - eexists. split; [reflexivity|]. split; [done|]. intros e [=].
  - eexists. split; [reflexivity|]. split; [intros [=]|intros e [=]].
  - eexists. split; [reflexivity|]. split; [intros [=]|done].
Qed.

Lemma context_parts_imap (start : nat) (results : list Document) :
  context_parts start results =
  imap (λ i doc, "[" +:+ str_of_nat (start + i) +:+ "] " +:+ page_content doc) results.
Proof.
  revert start. induction results as [|doc results IH]; intros start; [done|].
  cbn [context_parts]. rewrite imap_cons. f_equal.
  - unfold context_part. by rewrite Nat.add_0_r.
  - rewrite IH. apply imap_ext. intros i d _. cbn. by rewrite Nat.add_succ_r.
Qed.

Lemma str_length_app (a b : string) :
  String.length (a +:+ b) = String.length a + String.length b.
Proof. induction a as [|c a IH]; [done|]. simpl. by f_equal. Qed.

Lemma str_take_length (n : nat) (s : string) : String.length (str_take n s) ≤ n.
Proof.
  revert s. induction n as [|n IH]; intros [|c s]; cbn; try lia.
  specialize (IH s). lia.
Qed.

Lemma str_take_all (n : nat) (s : string) : String.length s ≤ n → str_take n s = s.
Proof.
  revert s. induction n as [|n IH]; intros [|c s]; cbn; intros Hlen; try done; try lia.
  f_equal. apply IH. lia.
Qed.

Lemma C7_counterexample :
  String.length (page_content refund_doc) ≤ 200
  ∧ spec_excerpt (page_content refund_doc) = page_content refund_doc
  ∧ source_content (source_of refund_doc) ≠ spec_excerpt (page_content refund_doc)
  ∧ retrieve_context refund_store "What is the refund policy?" 4 =
    Ret {| context := "[1] Refunds are processed within 5 business days.";
           sources :=
             [{| title := "policy.md";
                 url := "#";
                 source_content := "Refunds are processed within 5 business days...." |}] |}.
Proof.
  split; [vm_compute; lia|]. split; [reflexivity|]. split; [by vm_compute|reflexivity].
Qed.

(** C7 (amended): for a non-empty list of passages the context is the
    passage texts in order, each prefixed by its 1-based rank in square
    brackets and a space, joined by a blank line; the excerpt of each
    source is the first 200 characters of the passage followed by ["..."],
    and the ["..."] is appended whether or not the passage was cut. *)
Theorem C7_context_and_excerpts (vector_store : VectorStore) (query : string) (k : nat)
    (results : list Document) :
  vector_store query k = Ret results →
  results ≠ [] →
  ∃ context_data,
    retrieve_context vector_store query k = Ret context_data
    ∧ context context_data =
      str_join (nl +:+ nl)
        (imap (λ i doc, "[" +:+ str_of_nat (1 + i) +:+ "] " +:+ page_content doc) results)
    ∧ map source_content (sources context_data) =
      map (λ doc, str_take 200 (page_content doc) +:+ "...") results
    ∧ Forall (λ s, String.length (source_content s) ≤ 203) (sources context_data)
    ∧ Forall2 (λ doc s, String.length (page_content doc) ≤ 200 →
                        source_content s = page_content doc +:+ "...")
              results (sources context_data).
Proof.
  intros Hsearch Hne.
  unfold retrieve_context, retrieve_body, try_except, mbind, exn_bind.
  rewrite Hsearch. destruct results as [|doc results]; [done|].
  eexists. split; [reflexivity|]. cbn [context sources].
  split; [by rewrite context_parts_imap|].
  split; [by rewrite map_map|].
  split.
  - apply Forall_map. apply Forall_forall. intros d _.
    cbn [source_of source_content]. rewrite str_length_app.
    pose proof (str_take_length 200 (page_content d)) as Hle.
    change (String.length "...") with 3. lia.
  - apply Forall2_fmap_r. apply Forall2_same_length_lookup_2; [done|].
    intros i d d' Hd Hd' Hlen. simplify_eq.
    cbn [source_of source_content]. by rewrite str_take_all.
Qed.

Lemma C7_context_and_excerpts_witness :
  refund_store "What is the refund policy?" 4 = Ret [refund_doc]
  ∧ ∃ context_data,
      retrieve_context refund_store "What is the refund policy?" 4 = Ret context_data
      ∧ context context_data = "[1] Refunds are processed within 5 business days."
      ∧ map source_content (sources context_data)
        = ["Refunds are processed within 5 business days...."].
Proof.
  split; [reflexivity|].
  destruct (C7_context_and_excerpts refund_store "What is the refund policy?" 4
              [refund_doc] eq_refl) as (cd & Hret & Hctx & Hsrc & _); [discriminate|].
  exists cd. split; [exact Hret|]. split; [exact Hctx|exact Hsrc].
Defined.

(** ** Session history *)

Lemma C9_counterexample :
  delete_history ∅ "session_0123456789ab"
  = (HTTPException 404 "Session not found", ∅).
Proof. reflexivity. Qed.

(** C9 (amended): deleting an absent session id is a not-found error (404)
    that leaves the store unchanged, just as reading the history of an
    absent id is a not-found error; deleting a present session succeeds and
    removes it, so that deleting the same id again is a not-found error. *)
Theorem C9_delete_and_read (conversations : gmap string Session) (sid : string) :
  (conversations !! sid = None →
     delete_history conversations sid
     = (HTTPException 404 "Session not found", conversations)
     ∧ get_history conversations sid = HTTPException 404 "Session not found")
  ∧ (∀ s, conversations !! sid = Some s →
       delete_history conversations sid
       = (Ok "History deleted successfully", delete sid conversations)
       ∧ get_history conversations sid = Ok s
       ∧ fst (delete_history (snd (delete_history conversations sid)) sid)
         = HTTPException 404 "Session not found"
       ∧ get_history (snd (delete_history conversations sid)) sid
         = HTTPException 404 "Session not found").
Proof.
  unfold delete_history, get_history. split.
  - intros ->. done.
  - intros s ->. cbn [fst snd]. rewrite lookup_delete_eq. done.
Qed.

(** ** The prompt window *)

Lemma history_messages_window (msgs : list ChatMessage) :
  6 < length msgs →
  ∃ dropped kept,
    msgs = dropped ++ kept ∧ dropped ≠ [] ∧ length kept = 6
    ∧ history_messages (Some msgs) = map to_message kept.
Proof.
  intros Hlen. exists (take (length msgs - 6) msgs), (drop (length msgs - 6) msgs).
  split; [by rewrite take_drop|]. split.
  - intros Hnil. apply (f_equal length) in Hnil. rewrite length_take in Hnil.
    cbn in Hnil. lia.
  - split; [rewrite length_drop; lia|].
    destruct msgs as [|m msgs]; [cbn in Hlen; lia|]. reflexivity.
Qed.

Lemma init_session_lookup (conversations : gmap string Session) (sid : string)
    (clock : Clock) (sid' : string) (s : Session) :
  conversations !! sid' = Some s →
  init_session conversations sid clock !! sid' = Some s.
Proof.
  intros Hs. unfold init_session.
  destruct (conversations !! sid) eqn:E; [done|].
  rewrite lookup_insert_ne; [done|]. intros ->. congruence.
Qed.

Lemma store_turn_lookup (conversations : gmap string Session) (sid : string)
    (clock : Clock) (request : ChatRequest) (llm_response : LLMResponse)
    (sid' : string) (s : Session) :
  conversations !! sid' = Some s →
  ∃ s', store_turn conversations sid clock request llm_response !! sid' = Some s'
        ∧ history s `prefix_of` history s'.
Proof.
  intros Hs. unfold store_turn. destruct (decide (sid = sid')) as [->|Hne].
  - rewrite lookup_alter_eq, Hs. eexists. split; [reflexivity|].
    cbn. by apply prefix_app_r.
  - rewrite lookup_alter_ne by done. by exists s.
Qed.

Lemma retrieve_context_total (vector_store : VectorStore) (query : string) (k : nat) :
  ∃ context_data, retrieve_context vector_store query k = Ret context_data.
Proof.
  unfold retrieve_context, retrieve_body, try_except, mbind, exn_bind.
  destruct (vector_store query k) as [[|doc results]|e]; by eexists.
Qed.

Lemma foldl_delete_cases (expired : list string) (m : gmap string Session) (k : string) :
  foldl (λ m session_id, delete session_id m) m expired !! k = None
  ∨ foldl (λ m session_id, delete session_id m) m expired !! k = m !! k.
Proof.
  revert m. induction expired as [|x expired IH]; intros m; [by right|].
  cbn [foldl]. destruct (IH (delete x m)) as [Hnone|Hsame]; [by left|].
  rewrite Hsame. destruct (decide (x = k)) as [->|Hne].
  - left. apply lookup_delete_eq.
  - right. by apply lookup_delete_ne.
Qed.

Lemma cleanup_lookup_cases (fromisoformat : string → exn Z) (now : Z)
    (m : gmap string Session) (k : string) :
  cleanup_old_sessions fromisoformat now m !! k = None
  ∨ cleanup_old_sessions fromisoformat now m !! k = m !! k.
Proof.
  unfold cleanup_old_sessions.
  destruct (collect_expired fromisoformat now (map_to_list m)); [|by right].
  apply foldl_delete_cases.
Qed.

Lemma conversations_served_cases (fromisoformat : string → exn Z) (now : Z)
    (out : ChatOutcome) (k : string) :
  background_tasks out = [] ∨ background_tasks out = [cleanup_old_sessions_task] →
  conversations_served fromisoformat now out !! k = None
  ∨ conversations_served fromisoformat now out !! k = conversations_after out !! k.
Proof.
  intros Htasks. unfold conversations_served, run_background_tasks.
  destruct (result out); [|by right].
  destruct Htasks as [-> | ->]; cbn [foldl]; [by right|].
  apply cleanup_lookup_cases.
Qed.

Section ChatWindow.
Context {P : Type} `{LLMProvider P} `{LLMStreamProvider P}.
Variable validator : string → option string → exn unit.
Variable system_prompt : string.
Variable response_error : string.
Variable fromisoformat : string → exn Z.

Lemma chat_keeps_history (make_retriever : exn VectorStore) (factory : LLMFactory P)
    (clock : Clock) (conversations : gmap string Session) (request : ChatRequest)
    (sid : string) (s : Session) :
  conversations !! sid = Some s →
  ∃ s', conversations_after (chat validator make_retriever system_prompt response_error
                               factory clock conversations request) !! sid = Some s'
        ∧ history s `prefix_of` history s'.
Proof.
  intros Hs. unfold chat. destruct (validator _ _); [|by exists s].
  destruct make_retriever as [vs|];
    [|exists s; split; [by apply init_session_lookup|done]].
  destruct (retrieve_context vs (message request) 4) as [cd|];
    [|exists s; split; [by apply init_session_lookup|done]].
  cbn [conversations_after]. apply store_turn_lookup. by apply init_session_lookup.
Qed.

Lemma chat_background_tasks (make_retriever : exn VectorStore) (factory : LLMFactory P)
    (clock : Clock) (conversations : gmap string Session) (request : ChatRequest) :
  let out := chat validator make_retriever system_prompt response_error
               factory clock conversations request in
  background_tasks out = [] ∨ background_tasks out = [cleanup_old_sessions_task].
Proof.
  unfold chat. destruct (validator _ _); [|by left].
  destruct make_retriever as [vs|]; [|by left].
  destruct (retrieve_context vs (message request) 4) as [cd|]; [by right|by left].
Qed.


End ChatWindow.


(** What reaches the provider, seen in its echo: of the eight messages of
    the request the first two are missing, in the answer and in the stream. *)
Example chat_echo_demo :
  result (chat (λ _ _, Ret ()) (Ret refund_store) "Be brief."
            "none is not an allowed value" echo_factory demo_clock ∅ demo_request)
  = Ok {| response :=
            "m3m4m5m6m7m8"
            +:+ user_prompt "[1] Refunds are processed within 5 business days."
                            "What is the refund policy?";
          resp_sources := [source_of refund_doc];
          resp_session_id := "s1";
          success := true;
          provider_used := "echo";
          resp_tokens_used := None |}
  ∧ chat_stream_generate (Ret refund_store) "Be brief." echo_factory demo_request
    = [sse "m3"; sse "m4"; sse "m5"; sse "m6"; sse "m7"; sse "m8";
       sse (stream_prompt "[1] Refunds are processed within 5 business days."
                          "What is the refund policy?");
       sse "[DONE]"].
Proof. split; vm_compute; reflexivity. Qed.

(** The same request end to end: eight messages come in, the answer is the
    one generated from the third to the eighth and the prompt, and it is
    stored in the session. *)
Example chat_demo_result :
  result (chat (λ _ _, Ret ()) (Ret refund_store) "Be brief."
            "none is not an allowed value" (demo_factory true) demo_clock ∅ demo_request)
  = Ok {| response := "Refunds take 5 business days.";
          resp_sources := [source_of refund_doc];
          resp_session_id := "s1";
          success := true;
          provider_used := "claude";
          resp_tokens_used := Some 48 |}
  ∧ generate_with_fallback (demo_factory true)
      (map to_message (drop 2 demo_history)
       ++ [{| msg_role := "user";
              msg_content :=
                user_prompt "[1] Refunds are processed within 5 business days."
                            "What is the refund policy?" |}])
      (Some "Be brief.") None
    = demo_claude_response.
Proof. split; vm_compute; reflexivity. Qed.

(** * Further properties *)

(** ** Candidates and trials *)

Lemma extend_with_fallback_NoDup {P} (self : LLMFactory P) (order acc : list string) :
  NoDup acc → NoDup (extend_with_fallback self order acc).
Proof.
  revert acc. induction order as [|n order IH]; intros acc Hacc; [done|].
  cbn [extend_with_fallback].
  destruct (negb (bool_decide (n ∈ acc)) && available self n) eqn:E; [|by apply IH].
  apply andb_true_iff in E as [Hn _]. apply negb_true_iff, bool_decide_eq_false in Hn.
  apply IH. apply NoDup_app. split; [done|]. split; [|apply NoDup_singleton].
  intros x Hx Hx'. apply list_elem_of_singleton in Hx'. by subst.
Qed.

(** No provider is tried twice and only registered providers are tried,
    whatever the fallback order lists. *)
Theorem providers_to_try_no_repeats {P} (self : LLMFactory P) (preferred : option string) :
  NoDup (providers_to_try self preferred)
  ∧ Forall (λ n, is_Some (_providers self !! n)) (providers_to_try self preferred)
  ∧ length (providers_to_try self preferred) ≤ size (_providers self).
Proof.
  assert (NoDup (providers_to_try self preferred)) as Hnd.
  { unfold providers_to_try.
    assert (NoDup (if truthy preferred && available self (py_str preferred)
                   then [py_str preferred] else [])) as Hhead.
    { destruct (truthy preferred && available self (py_str preferred));
        [apply NoDup_singleton|apply NoDup_nil_2]. }
    destruct (enable_fallback (config self)); [|done].
    by apply extend_with_fallback_NoDup. }
  pose proof (providers_to_try_available self preferred) as Hav.
  split; [done|]. split; [done|].
  rewrite <- size_dom, <- (size_list_to_set (C:=gset string)) by done.
  apply subseteq_size. intros n Hn. apply elem_of_list_to_set in Hn.
  apply elem_of_dom. by eapply Forall_forall in Hav.
Qed.

Section FallbackOutcome.
Context {P : Type} `{LLMProvider P}.
Variable self : LLMFactory P.
Variable messages : list Message.
Variable system_prompt : option string.

Lemma succeeds_not_failed (o : exn LLMResponse) (r : LLMResponse) :
  succeeds_with o r → ¬ failed o.
Proof. intros [-> Hok] Hfail. by apply Hok. Qed.

(** The result of [generate_with_fallback] is not an error result exactly
    when some candidate of the list succeeds. *)
Theorem fallback_succeeds_iff (preferred : option string) :
  not_error (generate_with_fallback self messages system_prompt preferred) = true
  ↔ ∃ c r, c ∈ providers_to_try self preferred
           ∧ succeeds_with (attempt self messages system_prompt c) r.
Proof.
  destruct (first_success_or_all_failed self messages system_prompt
              (providers_to_try self preferred))
    as [Hall|(pre & c & post & r & Hcands & Hpre & Hc)].
  - destruct (generate_with_fallback_all_failed self messages system_prompt
                preferred Hall) as (log' & Hrun & _).
    unfold generate_with_fallback, generate_with_fallback_logged. rewrite Hrun.
    cbn [returned fst]. unfold not_error. cbn [finish_reason].
    rewrite bool_decide_eq_true_2 by done. split; [done|].
    intros (c & r & Hin & Hc). exfalso.
    eapply Forall_forall in Hall; [|exact Hin]. by eapply succeeds_not_failed.
  - destruct (generate_with_fallback_success self messages system_prompt
                preferred pre post c r Hcands Hpre Hc) as (log' & Hrun & _).
    unfold generate_with_fallback, generate_with_fallback_logged. rewrite Hrun.
    cbn [returned fst]. split.
    + intros _. exists c, r. split; [|done]. rewrite Hcands.
      apply elem_of_app. right. apply elem_of_cons. by left.
    + intros _. destruct Hc as [_ Hok]. unfold not_error.
      by rewrite bool_decide_eq_false_2.
Qed.

(** The providers tried are an initial segment of the candidate list, and
    an error result is returned only after every candidate was tried. *)
Theorem tried_is_prefix (preferred : option string) :
  tried (snd (generate_with_fallback_logged self messages system_prompt preferred))
    `prefix_of` providers_to_try self preferred
  ∧ (not_error (generate_with_fallback self messages system_prompt preferred) = false →
     tried (snd (generate_with_fallback_logged self messages system_prompt preferred))
     = providers_to_try self preferred).
Proof.
  destruct (first_success_or_all_failed self messages system_prompt
              (providers_to_try self preferred))
    as [Hall|(pre & c & post & r & Hcands & Hpre & Hc)].
  - destruct (generate_with_fallback_all_failed self messages system_prompt
                preferred Hall) as (log' & Hrun & Htried).
    unfold generate_with_fallback, generate_with_fallback_logged. rewrite Hrun.
    cbn [returned log fst snd]. rewrite tried_app, Htried. cbn [tried omap].
    rewrite app_nil_r. done.
  - destruct (generate_with_fallback_success self messages system_prompt
                preferred pre post c r Hcands Hpre Hc) as (log' & Hrun & Htried).
    unfold generate_with_fallback, generate_with_fallback_logged. rewrite Hrun.
    cbn [returned log fst snd]. rewrite Htried, Hcands. split.
    + exists post. by rewrite <- app_assoc.
    + destruct Hc as [_ Hok]. unfold not_error.
      rewrite bool_decide_eq_false_2 by done. done.
Qed.

End FallbackOutcome.

(** ** The registry *)

Lemma new_provider_fields (sdk : SDK) (cls : ProviderClass) (key : string)
    (pc : ProviderConfig) (p : Provider) :
  new_provider sdk cls key pc = Ret p →
  key ≠ ""
  ∧ fields p = {| api_key := key; base_model := pc_model pc;
                  max_tokens := pc_max_tokens pc; timeout := pc_timeout pc |}.
Proof.
  unfold new_provider, mbind, exn_bind. intros Hnew.
  destruct cls; destruct (bool_decide (key = "")) eqn:Hk; try discriminate;
    apply bool_decide_eq_false in Hk;
    match type of Hnew with
    | context [match ?x with _ => _ end] => destruct x; simplify_eq
    end; done.
Qed.

Lemma truthy_Some (o : option string) :
  truthy o = true ↔ ∃ s, o = Some s ∧ s ≠ "".
Proof.
  destruct o as [s|]; cbn.
  - rewrite negb_true_iff, bool_decide_eq_false. split; [by exists s|].
    by intros (s' & [= <-] & Hs).
  - split; [done|]. by intros (s & [=] & _).
Qed.

Lemma initialize_provider_other (cfg : LLMConfig) (getenv : string → option string)
    (sdk : SDK) (registry : gmap string Provider) (item : string * ProviderConfig)
    (n : string) :
  item.1 ≠ n →
  initialize_provider cfg getenv sdk registry item !! n = registry !! n.
Proof.
  destruct item as [name pc]. intros Hne. cbn [fst] in Hne. unfold initialize_provider.
  destruct (negb (enabled pc)); [done|].
  destruct (negb (truthy _)); [done|].
  destruct (dict_get PROVIDERS name); [|done].
  destruct (new_provider _ _ _ _); [|done].
  by rewrite lookup_insert_ne.
Qed.

Lemma initialize_provider_inv (cfg : LLMConfig) (getenv : string → option string)
    (sdk : SDK) (registry : gmap string Provider) (name : string)
    (pc : ProviderConfig) (p : Provider) :
  initialize_provider cfg getenv sdk registry (name, pc) !! name = Some p →
  registry !! name = Some p
  ∨ ∃ key cls, enabled pc = true
               ∧ get_provider_api_key cfg getenv name = Some key
               ∧ dict_get PROVIDERS name = Some cls
               ∧ new_provider sdk cls key pc = Ret p.
Proof.
  unfold initialize_provider.
  destruct (enabled pc); cbn [negb]; [|by left].
  destruct (truthy (get_provider_api_key cfg getenv name)) eqn:Hkey; cbn [negb]; [|by left].
  apply truthy_Some in Hkey as (key & Hkey & _). rewrite Hkey. cbn [py_str].
  destruct (dict_get PROVIDERS name) as [cls|]; [|by left].
  destruct (new_provider sdk cls key pc) as [q|e] eqn:Hnew; [|by left].
  rewrite lookup_insert_eq. intros [= <-]. right. by exists key, cls.
Qed.

Lemma foldl_initialize_sound (cfg : LLMConfig) (getenv : string → option string)
    (sdk : SDK) (items : list (string * ProviderConfig))
    (registry : gmap string Provider) (n : string) (p : Provider) :
  foldl (initialize_provider cfg getenv sdk) registry items !! n = Some p →
  registry !! n = Some p
  ∨ ∃ pc key cls, (n, pc) ∈ items ∧ enabled pc = true
                  ∧ get_provider_api_key cfg getenv n = Some key
                  ∧ dict_get PROVIDERS n = Some cls
                  ∧ new_provider sdk cls key pc = Ret p.
Proof.
  revert registry. induction items as [|[name pc] items IH]; intros registry Hn.
  - by left.
  - cbn [foldl] in Hn. apply IH in Hn as [Hn|(pc' & key & cls & Hin & Hrest)].
    + destruct (decide (name = n)) as [->|Hne].
      * apply initialize_provider_inv in Hn as [Hn|(key & cls & Hrest)]; [by left|].
        right. exists pc, key, cls. split; [apply elem_of_cons; by left|done].
      * left. by rewrite initialize_provider_other in Hn.
    + right. exists pc', key, cls. split; [apply elem_of_cons; by right|done].
Qed.

Lemma registry_sound_aux (cfg : LLMConfig) (getenv : string → option string)
    (sdk : SDK) (n : string) (p : Provider) :
  _providers (LLMFactory_init cfg getenv sdk) !! n = Some p →
  ∃ pc, (n, pc) ∈ providers cfg.
Proof.
  cbn [LLMFactory_init _providers]. intros Hn.
  apply foldl_initialize_sound in Hn as [Hn|(pc & key & cls & Hin & _)].
  - by rewrite lookup_empty in Hn.
  - by exists pc.
Qed.

(** Only enabled providers with a credential and a known class are
    registered, and each instance carries the key and model of its
    configuration. *)
Theorem registry_sound (cfg : LLMConfig) (getenv : string → option string)
    (sdk : SDK) (n : string) (p : Provider) :
  _providers (LLMFactory_init cfg getenv sdk) !! n = Some p →
  ∃ pc key cls,
    (n, pc) ∈ providers cfg
    ∧ enabled pc = true
    ∧ get_provider_api_key cfg getenv n = Some key ∧ key ≠ ""
    ∧ dict_get PROVIDERS n = Some cls
    ∧ api_key (fields p) = key
    ∧ base_model (fields p) = pc_model pc.
Proof.
  cbn [LLMFactory_init _providers]. intros Hn.
  apply foldl_initialize_sound in Hn as [Hn|(pc & key & cls & Hin & Hen & Hkey & Hcls & Hnew)].
  - by rewrite lookup_empty in Hn.
  - apply new_provider_fields in Hnew as [Hk Hf].
    exists pc, key, cls. rewrite Hf. done.
Qed.

Lemma registry_sound_witness :
  is_Some (_providers (demo_factory true) !! "claude")
  ∧ ∃ pc, ("claude", pc) ∈ providers (demo_config true) ∧ enabled pc = true.
Proof.
  assert (is_Some (_providers (demo_factory true) !! "claude")) as Hs
    by (vm_compute; by eexists).
  split; [exact Hs|]. destruct Hs as [p Hp].
  destruct (registry_sound (demo_config true) demo_getenv demo_sdk "claude" p Hp)
    as (pc & _ & _ & Hin & Hen & _).
  by exists pc.
Defined.

Lemma foldl_initialize_other (cfg : LLMConfig) (getenv : string → option string)
    (sdk : SDK) (items : list (string * ProviderConfig))
    (registry : gmap string Provider) (n : string) :
  n ∉ map fst items →
  foldl (initialize_provider cfg getenv sdk) registry items !! n = registry !! n.
Proof.
  revert registry. induction items as [|item items IH]; intros registry Hn; [done|].
  cbn [foldl]. cbn [map] in Hn. apply not_elem_of_cons in Hn as [Hne Hn].
  rewrite IH by done. by apply initialize_provider_other.
Qed.

(** Every enabled provider with a credential and a known class whose client
    can be constructed is registered, under its configured name. *)
Theorem registry_complete (cfg : LLMConfig) (getenv : string → option string)
    (sdk : SDK) (n key : string) (pc : ProviderConfig) (cls : ProviderClass)
    (p : Provider) :
  NoDup (map fst (providers cfg)) →
  (n, pc) ∈ providers cfg →
  enabled pc = true →
  get_provider_api_key cfg getenv n = Some key →
  dict_get PROVIDERS n = Some cls →
  new_provider sdk cls key pc = Ret p →
  _providers (LLMFactory_init cfg getenv sdk) !! n = Some p.
Proof.
  intros Hnd Hin Hen Hkey Hcls Hnew. cbn [LLMFactory_init _providers].
  apply list_elem_of_split in Hin as (l1 & l2 & Hsplit). rewrite Hsplit in *.
  rewrite map_app in Hnd. cbn [map] in Hnd.
  apply NoDup_app in Hnd as (_ & _ & Hnd2). apply NoDup_cons in Hnd2 as [Hn2 _].
  rewrite foldl_app. cbn [foldl]. rewrite foldl_initialize_other by done.
  unfold initialize_provider. rewrite Hen. cbn [negb]. rewrite Hkey.
  apply new_provider_fields in Hnew as Hk. destruct Hk as [Hk _].
  cbn [truthy py_str]. rewrite bool_decide_eq_false_2 by done. cbn [negb].
  rewrite Hcls, Hnew. apply lookup_insert_eq.
Qed.

Lemma registry_complete_witness :
  NoDup (map fst (providers (demo_config true)))
  ∧ is_Some (_providers (LLMFactory_init (demo_config true) demo_getenv demo_sdk)
             !! "gemini").
Proof.
  assert (NoDup (map fst (providers (demo_config true)))) as Hnd.
  { apply (bool_decide_unpack _). by vm_compute. }
  split; [exact Hnd|].
  eexists.
  apply (registry_complete (demo_config true) demo_getenv demo_sdk "gemini"
           "key-GOOGLE_API_KEY"
           (demo_provider_config true "gemini-pro" "GOOGLE_API_KEY") Gemini _ Hnd).
  - cbn [providers demo_config]. do 2 (apply elem_of_cons; right).
    apply elem_of_cons. by left.
  - reflexivity.
  - reflexivity.
  - reflexivity.
  - reflexivity.
Defined.

(** ** Switching the default provider, readiness *)

Lemma get_available_providers_spec (cfg : LLMConfig) (getenv : string → option string)
    (sdk : SDK) (n : string) :
  n ∈ get_available_providers (LLMFactory_init cfg getenv sdk)
  ↔ is_Some (_providers (LLMFactory_init cfg getenv sdk) !! n).
Proof.
  unfold get_available_providers. rewrite list_elem_of_filter. split; [by intros [? _]|].
  intros [p Hp]. split; [by exists p|].
  apply registry_sound_aux in Hp as (pc & Hin).
  change (map fst ?l) with (fst <$> l). apply list_elem_of_fmap. by exists (n, pc).
Qed.

Lemma extend_with_fallback_registry {P} (self self' : LLMFactory P)
    (order acc : list string) :
  _providers self = _providers self' →
  extend_with_fallback self order acc = extend_with_fallback self' order acc.
Proof.
  intros Hreg. revert acc. induction order as [|n order IH]; intros acc; [done|].
  cbn [extend_with_fallback]. unfold available. rewrite Hreg, !IH. done.
Qed.

Lemma try_providers_registry {P} `{LLMProvider P} (self self' : LLMFactory P)
    (messages : list Message) (system_prompt : option string) (names : list string)
    (le : option string) (log : list LogRecord) :
  _providers self = _providers self' →
  try_providers self messages system_prompt names le log
  = try_providers self' messages system_prompt names le log.
Proof.
  intros Hreg. revert le log. induction names as [|n names IH]; intros le log; [done|].
  cbn [try_providers]. rewrite Hreg.
  destruct (_providers self' !! n) as [p|]; [|apply IH].
  destruct (generate_response p messages system_prompt) as [r|e]; [|apply IH].
  destruct (not_error r); [done|apply IH].
Qed.

Lemma generate_with_fallback_config {P} `{LLMProvider P} (self self' : LLMFactory P)
    (messages : list Message) (system_prompt preferred : option string) :
  _providers self = _providers self' →
  enable_fallback (config self) = enable_fallback (config self') →
  fallback_order (config self) = fallback_order (config self') →
  generate_with_fallback_logged self messages system_prompt preferred
  = generate_with_fallback_logged self' messages system_prompt preferred.
Proof.
  intros Hreg Hfb Horder. unfold generate_with_fallback_logged.
  assert (providers_to_try self preferred = providers_to_try self' preferred) as ->.
  { unfold providers_to_try, available. rewrite Hreg, Hfb, Horder.
    destruct (enable_fallback (config self')); [|done].
    by apply extend_with_fallback_registry. }
  by rewrite (try_providers_registry self self').
Qed.

(** [switch_provider] succeeds exactly for a listed provider; it then makes
    that provider the default that [chat_stream] uses for a request naming
    none, and leaves every result of [generate_with_fallback], hence of
    [chat], as it was. A refused switch changes nothing. *)
Theorem switch_provider_effect {P} `{LLMProvider P} (factory : LLMFactory P)
    (provider_name : string) :
  (provider_name ∈ get_available_providers factory →
     fst (switch_provider factory provider_name)
     = Ok {| switch_success := true;
             switch_provider_name := provider_name;
             switch_message := "Switched to " +:+ provider_name +:+ " provider" |}
     ∧ get_default_provider (snd (switch_provider factory provider_name))
       = _providers factory !! provider_name
     ∧ is_Some (get_default_provider (snd (switch_provider factory provider_name)))
     ∧ (∀ request, truthy (req_provider request) = false →
          chat_stream_provider (snd (switch_provider factory provider_name)) request
          = _providers factory !! provider_name)
     ∧ (∀ messages system_prompt preferred,
          generate_with_fallback (snd (switch_provider factory provider_name))
            messages system_prompt preferred
          = generate_with_fallback factory messages system_prompt preferred))
  ∧ (provider_name ∉ get_available_providers factory →
     snd (switch_provider factory provider_name) = factory
     ∧ ∃ detail, fst (switch_provider factory provider_name)
                 = HTTPException 400 detail).
Proof.
  unfold switch_provider. split.
  - intros Hin. rewrite bool_decide_eq_true_2 by done. cbn [negb fst snd].
    split; [done|].
    assert (is_Some (_providers factory !! provider_name)) as Hsome.
    { unfold get_available_providers in Hin. by apply list_elem_of_filter in Hin as [? _]. }
    split; [done|]. split; [done|]. split.
    + intros request Hreq. unfold chat_stream_provider. by rewrite Hreq.
    + intros messages system_prompt preferred. unfold generate_with_fallback.
      by rewrite (generate_with_fallback_config _ factory).
  - intros Hnin. rewrite bool_decide_eq_false_2 by done. cbn [negb fst snd].
    split; [done|]. by eexists.
Qed.

Lemma registry_empty_iff (cfg : LLMConfig) (getenv : string → option string) (sdk : SDK) :
  get_available_providers (LLMFactory_init cfg getenv sdk) = []
  ↔ _providers (LLMFactory_init cfg getenv sdk) = ∅.
Proof.
  split.
  - intros Hnil. apply map_empty. intros n.
    destruct (_providers (LLMFactory_init cfg getenv sdk) !! n) as [p|] eqn:Hn; [|done].
    assert (n ∈ get_available_providers (LLMFactory_init cfg getenv sdk)) as Hin
      by (apply get_available_providers_spec; by exists p).
    rewrite Hnil in Hin. by apply elem_of_nil in Hin.
  - intros Hempty. unfold get_available_providers. rewrite Hempty.
    induction (map fst (providers (config (LLMFactory_init cfg getenv sdk))))
      as [|n l IH]; [done|].
    rewrite filter_cons_False; [done|]. rewrite lookup_empty. by intros [? ?].
Qed.

(** The readiness probe reports not ready exactly when the registry is
    empty, and then every generation request ends in the synthetic failure
    without any provider being tried. *)
Theorem not_ready_no_answer (cfg : LLMConfig) (getenv : string → option string)
    (sdk : SDK) :
  let self := LLMFactory_init cfg getenv sdk in
  (readiness_check self = NotReady "No LLM providers available"
   ↔ _providers self = ∅)
  ∧ (_providers self = ∅ →
     ∀ messages system_prompt preferred,
       generate_with_fallback_logged self messages system_prompt preferred
       = ({| content := Some fallback_apology;
             model := "unknown";
             provider := "none";
             tokens_used := None;
             finish_reason := Some "error";
             error := Some "All providers failed. Last error: None" |},
          [LogError "All providers failed. Last error: None"]))
  ∧ (_providers self ≠ ∅ →
     readiness_check self = Ready (get_available_providers self)).
Proof.
  intros self. split; [|split].
  - unfold self. rewrite <- registry_empty_iff. unfold readiness_check.
    destruct (get_available_providers _); split; done.
  - intros Hempty messages system_prompt preferred.
    assert (providers_to_try self preferred = []) as Hnil.
    { pose proof (providers_to_try_available self preferred) as Hav.
      destruct (providers_to_try self preferred) as [|n l]; [done|].
      apply Forall_cons in Hav as [[p Hp] _]. by rewrite Hempty, lookup_empty in Hp. }
    unfold generate_with_fallback_logged. by rewrite Hnil.
  - intros Hne. unfold readiness_check.
    destruct (get_available_providers self) eqn:E; [|done].
    by apply registry_empty_iff in E.
Qed.

(** ** Streaming *)

Lemma stream_loop_nonempty {A} (body : A → exn (list string)) (items : list A)
    (failure : option string) :
  (∀ item out, body item = Ret out → Forall (λ f, f ≠ "") out) →
  Forall (λ f, f ≠ "") (stream_loop body items failure).1.
Proof.
  intros Hbody. induction items as [|item items IH]; [by constructor|].
  cbn [stream_loop]. destruct (body item) as [out|e] eqn:Hb; [|by constructor].
  destruct (stream_loop body items failure) as [outs exc]. cbn [fst] in *.
  apply Forall_app. split; [by eapply Hbody|done].
Qed.

Lemma yield_error_nonempty (g : Generator) :
  Forall (λ f, f ≠ "") g.1 → Forall (λ f, f ≠ "") (yield_error g).
Proof.
  intros Hg. unfold yield_error. apply Forall_app. split; [done|].
  destruct g.2; [|by constructor]. by apply Forall_singleton.
Qed.

Lemma completion_chunk_body_nonempty (chunk : CompletionChunk) (out : list string) :
  completion_chunk_body chunk = Ret out → Forall (λ f, f ≠ "") out.
Proof.
  unfold completion_chunk_body, mbind, exn_bind, index0.
  destruct chunk as [|[text|] chunk]; cbn; intros [= <-]; try by constructor.
  destruct (bool_decide (text = "")) eqn:E; cbn; [by constructor|].
  apply Forall_singleton. by apply bool_decide_eq_false in E.
Qed.

(** The OpenAI, HuggingFace and Gemini streams never yield an empty
    fragment, whatever the backend sends and wherever it fails. *)
Theorem stream_fragments_nonempty (self : BaseFields) (messages : list Message)
    (system_prompt : option string) :
  (∀ client, Forall (λ f, f ≠ "")
               (OpenAIProvider_stream_response self client messages system_prompt))
  ∧ (∀ client, Forall (λ f, f ≠ "")
                 (HuggingFaceProvider_stream_response self client messages system_prompt))
  ∧ (∀ client, Forall (λ f, f ≠ "")
                 (GeminiProvider_stream_response self client messages system_prompt)).
Proof.
  split; [|split]; intros client.
  - unfold OpenAIProvider_stream_response. apply yield_error_nonempty.
    destruct (client _ _ _) as [stream|e]; [|by constructor].
    apply stream_loop_nonempty, completion_chunk_body_nonempty.
  - unfold HuggingFaceProvider_stream_response. apply yield_error_nonempty.
    destruct (client _ _ _) as [stream|e]; [|by constructor].
    apply stream_loop_nonempty, completion_chunk_body_nonempty.
  - unfold GeminiProvider_stream_response. apply yield_error_nonempty.
    destruct (index_last messages) as [current|e]; [|by constructor].
    destruct (client _ _ _) as [response|e]; [|by constructor].
    apply stream_loop_nonempty.
    intros [text|e] out; unfold mbind, exn_bind; [|intros [=]].
    intros [= <-]. destruct (bool_decide (text = "")) eqn:E; cbn; [by constructor|].
    apply Forall_singleton. by apply bool_decide_eq_false in E.
Qed.

Lemma str_app_assoc (a b c : string) : (a +:+ b) +:+ c = a +:+ (b +:+ c).
Proof.
  induction a as [|x a IH]; [done|].
  change (String x ((a +:+ b) +:+ c) = String x (a +:+ (b +:+ c))). by f_equal.
Qed.

Lemma str_app_nil_r (a : string) : a +:+ "" = a.
Proof.
  induction a as [|x a IH]; [done|].
  change (String x (a +:+ "") = String x a). by f_equal.
Qed.

Lemma str_concat_app (l1 l2 : list string) :
  str_concat (l1 ++ l2) = str_concat l1 +:+ str_concat l2.
Proof.
  unfold str_concat. induction l1 as [|s l1 IH]; [done|].
  cbn [app foldr]. by rewrite IH, str_app_assoc.
Qed.

Lemma completion_loop_text (items : list CompletionChunk) (failure : option string) :
  Forall (λ chunk, chunk ≠ []) items →
  (stream_loop completion_chunk_body items failure).2 = failure
  ∧ str_concat (stream_loop completion_chunk_body items failure).1
    = str_concat (map chunk_text items).
Proof.
  induction 1 as [|chunk items Hchunk _ [IHexc IHtext]]; [done|].
  cbn [stream_loop map]. destruct chunk as [|choice chunk]; [done|].
  unfold completion_chunk_body at 1 3. cbn [index0 mbind exn_bind].
  destruct (stream_loop completion_chunk_body items failure) as [outs exc].
  cbn [fst snd] in *. split; [done|].
  rewrite str_concat_app, IHtext. unfold str_concat at 3. cbn [foldr].
  fold (str_concat (map chunk_text items)). f_equal.
  destruct choice as [text|]; cbn [truthy py_str chunk_text]; [|done].
  destruct (bool_decide (text = "")) eqn:E; cbn [negb].
  - by apply bool_decide_eq_true in E as ->.
  - unfold str_concat. cbn [foldr]. apply str_app_nil_r.
Qed.

Lemma completion_loop_fragments (items : list CompletionChunk) (failure : option string) :
  Forall (λ chunk, chunk ≠ []) items →
  (stream_loop completion_chunk_body items failure).1
  = filter (λ f, f ≠ "") (map chunk_text items).
Proof.
  induction 1 as [|chunk items Hchunk _ IH]; [done|].
  cbn [stream_loop map]. destruct chunk as [|choice chunk]; [done|].
  unfold completion_chunk_body at 1. cbn [index0 mbind exn_bind].
  destruct (stream_loop completion_chunk_body items failure) as [outs exc].
  cbn [fst] in *. rewrite filter_cons, <- IH.
  destruct choice as [text|]; cbn [truthy py_str chunk_text].
  - destruct (decide (text = "")) as [->|Hne].
    + rewrite decide_False by (by intros ?). done.
    + rewrite bool_decide_eq_false_2 by done. by rewrite decide_True.
  - rewrite decide_False by (by intros ?). done.
Qed.

(** When the OpenAI stream delivers chunks that all carry a choice, the
    fragments yielded are exactly the non-empty texts of the chunks, one
    fragment per chunk and in order; if the stream then breaks with an
    exception [e], exactly one further fragment ["Error: " + str(e)]
    follows, and nothing else. So the fragments spell the text of the
    chunks, followed by the error text if there was one. *)
Theorem OpenAI_stream_fragments (self : BaseFields) (client : StreamChatClient)
    (messages : list Message) (system_prompt : option string)
    (stream : SDKStream CompletionChunk) :
  client (base_model self) (format_messages messages system_prompt) (max_tokens self)
  = Ret stream →
  Forall (λ chunk, chunk ≠ []) (stream_items stream) →
  OpenAIProvider_stream_response self client messages system_prompt
  = filter (λ f, f ≠ "") (map chunk_text (stream_items stream))
    ++ match stream_failure stream with
       | Some e => ["Error: " +:+ e]
       | None => []
       end
  ∧ str_concat (OpenAIProvider_stream_response self client messages system_prompt)
    = str_concat (map chunk_text (stream_items stream))
      +:+ match stream_failure stream with
          | Some e => "Error: " +:+ e
          | None => ""
          end.
Proof.
  intros Hclient Hitems. unfold OpenAIProvider_stream_response, yield_error.
  rewrite Hclient.
  destruct (completion_loop_text (stream_items stream) (stream_failure stream) Hitems)
    as [Hexc Htext].
  split.
  - by rewrite Hexc, (completion_loop_fragments _ _ Hitems).
  - rewrite str_concat_app, Htext, Hexc. f_equal.
    destruct (stream_failure stream) as [e|]; [|done].
    unfold str_concat. cbn [foldr]. apply str_app_nil_r.
Qed.

Lemma OpenAI_stream_fragments_witness :
  demo_stream_client (base_model demo_base) (format_messages demo_messages None)
                     (max_tokens demo_base)
  = Ret {| stream_items := [[Some "Refunds "]; [Some ""]; [None]; [Some "take"]];
           stream_failure := Some "Connection reset" |}
  ∧ OpenAIProvider_stream_response demo_base demo_stream_client demo_messages None
    = ["Refunds "; "take"; "Error: Connection reset"]
  ∧ str_concat (OpenAIProvider_stream_response demo_base demo_stream_client
                  demo_messages None)
    = "Refunds takeError: Connection reset".
Proof.
  split; [reflexivity|].
  destruct (OpenAI_stream_fragments demo_base demo_stream_client demo_messages None
              _ eq_refl) as [Hfragments Htext].
  - cbn. repeat constructor; discriminate.
  - split; [rewrite Hfragments|rewrite Htext]; reflexivity.
Defined.

(** With the request accepted and the retriever built, [chat_stream] over
    the adapters answers with a non-empty event list: one event per
    fragment followed by the event [[DONE]] when a provider is selected,
    also when the backend failed and its error came as a fragment, and the
    single event ["Error: No provider available"] when none is. *)
Theorem chat_stream_events (validator : string → option string → exn unit)
    (vector_store : VectorStore) (system_prompt : string)
    (factory : LLMFactory StreamAdapter) (request : ChatRequest) :
  validator (message request) (session_id request) = Ret () →
  ∃ events context_data,
    chat_stream validator (Ret vector_store) system_prompt factory request = Ok events
    ∧ retrieve_context vector_store (message request) 4 = Ret context_data
    ∧ match chat_stream_provider factory request with
      | Some p =>
          events =
            map sse (adapter_stream_response p
                       (chat_stream_messages request context_data)
                       (Some system_prompt))
            ++ [sse "[DONE]"]
          ∧ last events = Some (sse "[DONE]")
      | None => events = [sse "Error: No provider available"]
      end.
Proof.
  intros Hvalid. unfold chat_stream, chat_stream_generate. rewrite Hvalid.
  destruct (retrieve_context_total vector_store (message request) 4) as [cd Hcd].
  rewrite Hcd. eexists _, cd. split; [reflexivity|]. split; [done|].
  destruct (chat_stream_provider factory request) as [p|]; [|done].
  cbn [stream_response StreamAdapter_LLMStreamProvider]. split; [done|].
  by rewrite last_snoc.
Qed.

Lemma chat_stream_events_witness :
  (λ (_ : string) (_ : option string), Ret ())
    (message demo_request) (session_id demo_request) = Ret ()
  ∧ ∃ events,
      chat_stream (λ _ _, Ret ()) (Ret refund_store) "Be brief." demo_stream_factory
        demo_request = Ok events
      ∧ last events = Some (sse "[DONE]").
Proof.
  split; [reflexivity|].
  destruct (chat_stream_events (λ _ _, Ret ()) refund_store "Be brief."
              demo_stream_factory demo_request eq_refl)
    as (events & cd & Hrun & _ & Hev).
  assert (chat_stream_provider demo_stream_factory demo_request
          = Some (OpenAIStream demo_base demo_stream_client)) as Hp by reflexivity.
  rewrite Hp in Hev. destruct Hev as [_ Hlast].
  exists events. split; [exact Hrun|exact Hlast].
Defined.

(** A backend that breaks after two fragments: the error is one more data
    event and the stream still ends with [[DONE]]. *)
Example chat_stream_demo :
  chat_stream (λ _ _, Ret ()) (Ret refund_store) "Be brief." demo_stream_factory
    demo_request
  = Ok [sse "Refunds "; sse "take"; sse "Error: Connection reset"; sse "[DONE]"].
Proof. vm_compute. reflexivity. Qed.

(** ** Retrieval through the vector store *)

Lemma context_starts_with_bracket (start : nat) (doc : Document) (rest : list Document) :
  ∃ tail, str_join (nl +:+ nl) (context_parts start (doc :: rest)) = String "[" tail.
Proof. destruct rest as [|doc' rest]; eexists; reflexivity. Qed.

(** The context returned by [retrieve_context] is never empty; there is one
    source per passage found, so the sources are empty exactly when the
    search found nothing or raised. *)
Theorem retrieve_context_shape (vector_store : VectorStore) (query : string) (k : nat) :
  ∃ context_data,
    retrieve_context vector_store query k = Ret context_data
    ∧ context context_data ≠ ""
    ∧ (∀ results, vector_store query k = Ret results →
         length (sources context_data) = length results)
    ∧ (sources context_data = []
       ↔ vector_store query k = Ret [] ∨ ∃ e, vector_store query k = Raise e).
Proof.
  unfold retrieve_context, retrieve_body, try_except, mbind, exn_bind.
  destruct (vector_store query k) as [[|doc results]|e].
  - eexists. split; [reflexivity|]. split; [done|]. split.
    + by intros ? [= <-].
    + split; [by left|done].
  - eexists. split; [reflexivity|]. cbn [context sources]. split.
    { destruct (context_starts_with_bracket 1 doc results) as [tail ->]. done. }
    split.
    + intros ? [= <-]. by rewrite length_map.
    + split; [done|]. intros [[=]|[e [=]]].
  - eexists. split; [reflexivity|]. split; [done|]. split.
    + intros ? [=].
    + split; [right; by exists e|done].
Qed.

(** Behind [VectorStore.search] a failure of the index is swallowed: the
    retriever then reports that nothing was found, and its own error
    sentinel is never returned. A [k] of zero is replaced by the configured
    default. *)
Theorem store_failure_reads_as_empty (config_k : nat)
    (similarity_search : string → nat → exn (list Document)) (query : string) (k : nat) :
  ∃ context_data,
    retrieve_context (VectorStore_search config_k similarity_search) query k
    = Ret context_data
    ∧ context context_data ≠ "Error retrieving information."
    ∧ (∀ e, similarity_search query (if bool_decide (k = 0) then config_k else k)
            = Raise e →
            context_data
            = {| context := "No relevant information found."; sources := [] |})
    ∧ retrieve_context (VectorStore_search config_k similarity_search) query 0
      = retrieve_context (VectorStore_search config_k similarity_search) query config_k.
Proof.
  assert (retrieve_context (VectorStore_search config_k similarity_search) query 0
          = retrieve_context (VectorStore_search config_k similarity_search) query config_k)
    as Hzero.
  { unfold retrieve_context, retrieve_body, VectorStore_search. cbn [bool_decide].
    rewrite bool_decide_eq_true_2 by done.
    by destruct (bool_decide (config_k = 0)) eqn:E; [apply bool_decide_eq_true in E as ->|]. }
  unfold retrieve_context, retrieve_body, VectorStore_search, try_except, mbind, exn_bind
    in *.
  destruct (similarity_search query (if bool_decide (k = 0) then config_k else k))
    as [[|doc results]|e].
  - eexists. split; [reflexivity|]. split; [done|]. split; [intros e [=]|done].
  - eexists. split; [reflexivity|]. cbn [context]. split.
    { destruct (context_starts_with_bracket 1 doc results) as [tail ->]. done. }
    split; [intros e [=]|done].
  - eexists. split; [reflexivity|]. split; [done|]. split; [done|done].
Qed.

(** ** Session expiry *)

Lemma foldl_delete_lookup (expired : list string) (m : gmap string Session) (k : string) :
  foldl (λ m session_id, delete session_id m) m expired !! k
  = if decide (k ∈ expired) then None else m !! k.
Proof.
  revert m. induction expired as [|x expired IH]; intros m.
  - cbn. rewrite decide_False; [done|]. by intros ?%elem_of_nil.
  - cbn [foldl]. rewrite IH. destruct (decide (k ∈ expired)) as [Hin|Hnin].
    + rewrite decide_True; [done|]. apply elem_of_cons. by right.
    + destruct (decide (k = x)) as [->|Hne].
      * rewrite lookup_delete_eq, decide_True; [done|]. apply elem_of_cons. by left.
      * rewrite lookup_delete_ne by done. rewrite decide_False; [done|].
        intros [?|?]%elem_of_cons; done.
Qed.

Section CleanupProofs.
Variable fromisoformat : string → exn Z.

Lemma collect_expired_Ret (now : Z) (items : list (string * Session))
    (expired : list string) :
  collect_expired fromisoformat now items = Ret expired →
  Forall (λ it, ∃ t, fromisoformat (created_at it.2) = Ret t) items
  ∧ ∀ k, k ∈ expired ↔ ∃ s t, (k, s) ∈ items
                              ∧ fromisoformat (created_at s) = Ret t
                              ∧ older_than_a_day now t = true.
Proof.
  revert expired. induction items as [|[sid s] items IH]; intros expired.
  - cbn. intros [= <-]. split; [by constructor|]. intros k. split.
    + by intros ?%elem_of_nil.
    + by intros (? & ? & ?%elem_of_nil & _).
  - cbn [collect_expired]. unfold mbind, exn_bind.
    destruct (fromisoformat (created_at s)) as [t|] eqn:Ht; [|done].
    destruct (collect_expired fromisoformat now items) as [rest|]; [|done].
    destruct (IH rest eq_refl) as [Hall Hrest]. intros [= <-].
    split; [constructor; [by exists t|done]|].
    intros k. destruct (older_than_a_day now t) eqn:Hold.
    + rewrite elem_of_cons, Hrest. split.
      * intros [->|(s' & t' & Hin & Hrestk)].
        -- exists s, t. split; [apply elem_of_cons; by left|done].
        -- exists s', t'. split; [apply elem_of_cons; by right|done].
      * intros (s' & t' & [[= -> ->]|Hin]%elem_of_cons & Ht' & Hold'); [by left|].
        right. by exists s', t'.
    + rewrite Hrest. split.
      * intros (s' & t' & Hin & Hrestk).
        exists s', t'. split; [apply elem_of_cons; by right|done].
      * intros (s' & t' & [[= -> ->]|Hin]%elem_of_cons & Ht' & Hold').
        -- congruence.
        -- by exists s', t'.
Qed.

Lemma collect_expired_Raise (now : Z) (items : list (string * Session))
    (k : string) (s : Session) (e : string) :
  (k, s) ∈ items →
  fromisoformat (created_at s) = Raise e →
  ∃ e', collect_expired fromisoformat now items = Raise e'.
Proof.
  intros Hin Hraise. destruct (collect_expired fromisoformat now items) as [expired|e'] eqn:Hc;
    [|by exists e'].
  apply collect_expired_Ret in Hc as [Hall _].
  eapply Forall_forall in Hall as [t Ht]; [|exact Hin]. cbn in Ht. congruence.
Qed.

Lemma cleanup_lookup (now : Z) (conversations : gmap string Session)
    (expired : list string) (sid : string) :
  collect_expired fromisoformat now (map_to_list conversations) = Ret expired →
  cleanup_old_sessions fromisoformat now conversations !! sid
  = match conversations !! sid with
    | Some s =>
        match fromisoformat (created_at s) with
        | Ret t => if older_than_a_day now t then None else Some s
        | Raise _ => Some s
        end
    | None => None
    end.
Proof.
  intros Hc. unfold cleanup_old_sessions. rewrite Hc, foldl_delete_lookup.
  apply collect_expired_Ret in Hc as [Hall Hexp].
  destruct (conversations !! sid) as [s|] eqn:Hs.
  - assert ((sid, s) ∈ map_to_list conversations) as Hin by by apply elem_of_map_to_list.
    eapply Forall_forall in Hall as [t Ht]; [|exact Hin]. cbn in Ht. rewrite Ht.
    destruct (older_than_a_day now t) eqn:Hold.
    + rewrite decide_True; [done|]. apply Hexp. by exists s, t.
    + rewrite decide_False; [done|]. intros (s' & t' & Hin' & Ht' & Hold')%Hexp.
      apply elem_of_map_to_list in Hin'. congruence.
  - by destruct (decide (sid ∈ expired)).
Qed.

Lemma collect_expired_total (now : Z) (items : list (string * Session)) :
  Forall (λ it, ∃ t, fromisoformat (created_at it.2) = Ret t) items →
  ∃ expired, collect_expired fromisoformat now items = Ret expired.
Proof.
  induction 1 as [|[k s] items [t Ht] _ [l IH]]; [by eexists|].
  cbn [collect_expired]. unfold mbind, exn_bind. cbn in Ht. rewrite Ht, IH.
  by eexists.
Qed.

Lemma cleanup_readable (now : Z) (conversations : gmap string Session) (sid : string) :
  (∀ sid' s, conversations !! sid' = Some s →
             ∃ t, fromisoformat (created_at s) = Ret t) →
  cleanup_old_sessions fromisoformat now conversations !! sid
  = match conversations !! sid with
    | Some s =>
        match fromisoformat (created_at s) with
        | Ret t => if older_than_a_day now t then None else Some s
        | Raise _ => Some s
        end
    | None => None
    end.
Proof.
  intros Hparse.
  destruct (collect_expired_total now (map_to_list conversations)) as [expired Hc].
  - apply Forall_forall. intros [k s] Hin. apply elem_of_map_to_list in Hin.
    by eapply Hparse.
  - by eapply cleanup_lookup.
Qed.

Lemma cleanup_unreadable (now : Z) (conversations : gmap string Session)
    (sid : string) (s : Session) (e : string) :
  conversations !! sid = Some s →
  fromisoformat (created_at s) = Raise e →
  cleanup_old_sessions fromisoformat now conversations = conversations.
Proof.
  intros Hs Hraise. unfold cleanup_old_sessions. apply elem_of_map_to_list in Hs.
  by destruct (collect_expired_Raise now _ sid s e Hs Hraise) as [e' ->].
Qed.

(** [cleanup_old_sessions] removes exactly the sessions created more than
    24 hours before now and leaves every other session as it is; if the
    creation time of any stored session cannot be read, nothing at all is
    removed. *)
Theorem cleanup_removes_only_expired (now : Z) (conversations : gmap string Session) :
  (∀ sid s e, conversations !! sid = Some s →
              fromisoformat (created_at s) = Raise e →
              cleanup_old_sessions fromisoformat now conversations = conversations)
  ∧ ((∀ sid s, conversations !! sid = Some s →
               ∃ t, fromisoformat (created_at s) = Ret t) →
     ∀ sid s t, conversations !! sid = Some s →
                fromisoformat (created_at s) = Ret t →
                cleanup_old_sessions fromisoformat now conversations !! sid
                = if bool_decide (86400 * 1000000 < now - t)%Z then None else Some s)
  ∧ (∀ sid, conversations !! sid = None →
            cleanup_old_sessions fromisoformat now conversations !! sid = None).
Proof.
  split; [|split].
  - intros sid s e Hs Hraise. unfold cleanup_old_sessions.
    apply elem_of_map_to_list in Hs.
    by destruct (collect_expired_Raise now _ sid s e Hs Hraise) as [e' ->].
  - intros Hparse sid s t Hs Ht.
    destruct (collect_expired fromisoformat now (map_to_list conversations))
      as [expired|e] eqn:Hc.
    + rewrite (cleanup_lookup now conversations expired sid Hc), Hs, Ht. done.
    + exfalso. clear sid s t Hs Ht.
      assert (∀ items, (∀ k s, (k, s) ∈ items → ∃ t, fromisoformat (created_at s) = Ret t) →
                       ∃ l, collect_expired fromisoformat now items = Ret l) as Htotal.
      { induction items as [|[k s] items IH]; intros Hitems; [by eexists|].
        cbn [collect_expired]. unfold mbind, exn_bind.
        destruct (Hitems k s) as [t ->]; [apply elem_of_cons; by left|].
        destruct IH as [l ->]; [|by eexists].
        intros k' s' Hin. apply (Hitems k' s'). apply elem_of_cons. by right. }
      destruct (Htotal (map_to_list conversations)) as [l Hl]; [|congruence].
      intros k s Hin. apply elem_of_map_to_list in Hin. by eapply Hparse.
  - intros sid Hnone. unfold cleanup_old_sessions.
    destruct (collect_expired fromisoformat now (map_to_list conversations)) as [expired|e];
      [|done].
    rewrite foldl_delete_lookup, Hnone. by destruct (decide (sid ∈ expired)).
Qed.

(** Running the cleanup twice at the same instant changes nothing more than
    running it once. *)
Theorem cleanup_idempotent (now : Z) (conversations : gmap string Session) :
  cleanup_old_sessions fromisoformat now
    (cleanup_old_sessions fromisoformat now conversations)
  = cleanup_old_sessions fromisoformat now conversations.
Proof.
  destruct (collect_expired fromisoformat now (map_to_list conversations))
    as [expired|e] eqn:Hc.
  - set (m' := cleanup_old_sessions fromisoformat now conversations).
    assert (∀ sid, m' !! sid
                   = match conversations !! sid with
                     | Some s =>
                         match fromisoformat (created_at s) with
                         | Ret t => if older_than_a_day now t then None else Some s
                         | Raise _ => Some s
                         end
                     | None => None
                     end) as Hm' by (intros sid; by eapply cleanup_lookup).
    destruct (collect_expired fromisoformat now (map_to_list m')) as [expired'|e'] eqn:Hc';
      [|unfold cleanup_old_sessions at 1; by rewrite Hc'].
    apply map_eq. intros sid.
    rewrite (cleanup_lookup now m' expired' sid Hc'), Hm'.
    destruct (conversations !! sid) as [s|]; [|done].
    destruct (fromisoformat (created_at s)) as [t|] eqn:Ht; [|by rewrite Ht].
    destruct (older_than_a_day now t) eqn:Hold; [done|]. by rewrite Ht, Hold.
  - assert (cleanup_old_sessions fromisoformat now conversations = conversations) as ->.
    { unfold cleanup_old_sessions. by rewrite Hc. }
    unfold cleanup_old_sessions. by rewrite Hc.
Qed.

End CleanupProofs.

(** A session of two days ago goes, one created now stays. *)
Example cleanup_demo :
  cleanup_old_sessions demo_fromisoformat (2 * 86400 * 1000000 + 1)%Z demo_conversations
  = <["new" := {| created_at := "day-3"; history := []; message_count := 0 |}]> ∅.
Proof. by vm_compute. Qed.

(** ** The chat endpoint *)

Lemma generate_with_fallback_cases {P} `{LLMProvider P} (self : LLMFactory P)
    (messages : list Message) (system_prompt preferred : option string) :
  (Forall (λ n, failed (attempt self messages system_prompt n))
          (providers_to_try self preferred)
   ∧ ∃ last, generate_with_fallback self messages system_prompt preferred
             = {| content := Some fallback_apology;
                  model := "unknown";
                  provider := "none";
                  tokens_used := None;
                  finish_reason := Some "error";
                  error := Some ("All providers failed. Last error: " +:+ py_str last) |})
  ∨ (∃ c r, c ∈ providers_to_try self preferred
            ∧ succeeds_with (attempt self messages system_prompt c) r
            ∧ generate_with_fallback self messages system_prompt preferred = r).
Proof.
  destruct (first_success_or_all_failed self messages system_prompt
              (providers_to_try self preferred))
    as [Hall|(pre & c & post & r & Hcands & Hpre & Hc)].
  - left. split; [done|].
    destruct (generate_with_fallback_all_failed self messages system_prompt
                preferred Hall) as (log' & Hrun & _).
    unfold generate_with_fallback, generate_with_fallback_logged. rewrite Hrun.
    by eexists.
  - right. exists c, r.
    destruct (generate_with_fallback_success self messages system_prompt
                preferred pre post c r Hcands Hpre Hc) as (log' & Hrun & _).
    split; [rewrite Hcands; apply elem_of_app; right; apply elem_of_cons; by left|].
    split; [done|].
    unfold generate_with_fallback, generate_with_fallback_logged. by rewrite Hrun.
Qed.

Section ChatEndpoint.
Context {P : Type} `{LLMProvider P}.
Variable validator : string → option string → exn unit.
Variable system_prompt : string.
Variable response_error : string.
Variable fromisoformat : string → exn Z.

(** Once the request is accepted and the retriever is built, what [chat]
    answers is decided by the result of [generate_with_fallback] alone. If
    that result has a content, the answer is a response object carrying it;
    if it has none, building the response object fails and the answer is
    HTTP 500. When every provider fails the content is the apology, so the
    answer is a response object with [success = false] and the provider
    ["none"]. A response object with [success = true] carries the content
    and provider of a candidate that succeeded. The 500 can only come from
    a candidate that succeeded without content. *)
Theorem chat_answers_unless_no_content (vector_store : VectorStore)
    (factory : LLMFactory P) (clock : Clock) (conversations : gmap string Session)
    (request : ChatRequest) :
  validator (message request) (session_id request) = Ret () →
  ∃ context_data,
    retrieve_context vector_store (message request) 4 = Ret context_data
    ∧ let messages := chat_messages request context_data in
      let llm_response :=
        generate_with_fallback factory messages (Some system_prompt)
                               (req_provider request) in
      let out := chat validator (Ret vector_store) system_prompt response_error
                   factory clock conversations request in
      result out
      = match content llm_response with
        | Some text =>
            Ok {| response := text;
                  resp_sources := sources context_data;
                  resp_session_id := chat_session_id clock request;
                  success := not_error llm_response;
                  provider_used := provider llm_response;
                  resp_tokens_used := tokens_used llm_response |}
        | None => HTTPException 500 response_error
        end
      ∧ (Forall (λ n, failed (attempt factory messages (Some system_prompt) n))
                (providers_to_try factory (req_provider request)) →
         result out
         = Ok {| response := fallback_apology;
                 resp_sources := sources context_data;
                 resp_session_id := chat_session_id clock request;
                 success := false;
                 provider_used := "none";
                 resp_tokens_used := None |})
      ∧ (∀ resp, result out = Ok resp →
           (success resp = false →
            response resp = fallback_apology ∧ provider_used resp = "none"
            ∧ resp_tokens_used resp = None)
           ∧ (success resp = true →
              ∃ c r, c ∈ providers_to_try factory (req_provider request)
                     ∧ succeeds_with (attempt factory messages (Some system_prompt) c) r
                     ∧ content r = Some (response resp)
                     ∧ provider_used resp = provider r
                     ∧ resp_tokens_used resp = tokens_used r))
      ∧ (∀ status_code detail,
           result out = HTTPException status_code detail →
           status_code = 500 ∧ detail = response_error
           ∧ ∃ c r, c ∈ providers_to_try factory (req_provider request)
                    ∧ succeeds_with (attempt factory messages (Some system_prompt) c) r
                    ∧ content r = None).
Proof.
  intros Hvalid.
  destruct (retrieve_context_total vector_store (message request) 4) as [cd Hcd].
  exists cd. split; [done|]. cbv zeta.
  assert (result (chat validator (Ret vector_store) system_prompt response_error
                    factory clock conversations request)
          = match content (generate_with_fallback factory (chat_messages request cd)
                             (Some system_prompt) (req_provider request)) with
            | Some text =>
                Ok {| response := text;
                      resp_sources := sources cd;
                      resp_session_id := chat_session_id clock request;
                      success :=
                        not_error (generate_with_fallback factory
                                     (chat_messages request cd) (Some system_prompt)
                                     (req_provider request));
                      provider_used :=
                        provider (generate_with_fallback factory
                                    (chat_messages request cd) (Some system_prompt)
                                    (req_provider request));
                      resp_tokens_used :=
                        tokens_used (generate_with_fallback factory
                                       (chat_messages request cd) (Some system_prompt)
                                       (req_provider request)) |}
            | None => HTTPException 500 response_error
            end) as Hres.
  { unfold chat. rewrite Hvalid, Hcd. reflexivity. }
  split; [exact Hres|]. rewrite Hres. clear Hres.
  destruct (generate_with_fallback_cases factory (chat_messages request cd)
              (Some system_prompt) (req_provider request))
    as [[Hall [last ->]]|(c & r & Hin & Hc & ->)].
  - cbn [content not_error finish_reason provider tokens_used].
    split; [done|]. split; [|done].
    intros resp [= <-].
    cbn [success response provider_used resp_tokens_used]. split; [done|].
    unfold not_error. cbn [finish_reason]. by rewrite bool_decide_eq_true_2.
  - assert (not_error r = true) as Hok.
    { destruct Hc as [_ Hne]. unfold not_error. by rewrite bool_decide_eq_false_2. }
    split; [|split].
    + intros Hall. exfalso. destruct Hc as [Hret Hne].
      eapply Forall_forall in Hall; [|exact Hin]. rewrite Hret in Hall. done.
    + destruct (content r) as [text|] eqn:Htext; [|done].
      intros resp [= <-]. cbn [success response provider_used resp_tokens_used].
      split; [by rewrite Hok|]. intros _. by exists c, r.
    + intros status_code detail.
      destruct (content r) as [text|] eqn:Htext; [done|].
      intros [= <- <-]. split; [done|]. split; [done|]. by exists c, r.
Qed.

(** The session store after such an exchange. When the handler returns, the
    history of the session reads back as the earlier history (empty for a
    new session) followed by the user message and the answer with the
    provider that gave it, the message count is one higher, and every
    other session is as before. If the answer was an HTTP error this is
    also what the next request finds. If it was a response object, the
    cleanup runs once it is sent: when some stored creation time cannot be
    read nothing changes; otherwise the session itself reads back as
    stored unless it was created more than 24 hours before, in which case
    it is gone and [get_history] answers 404, and each other session is
    kept or removed by the same rule. *)
Theorem chat_then_get_history (vector_store : VectorStore) (factory : LLMFactory P)
    (clock : Clock) (conversations : gmap string Session) (request : ChatRequest)
    (now : Z) :
  validator (message request) (session_id request) = Ret () →
  let sid := chat_session_id clock request in
  let out := chat validator (Ret vector_store) system_prompt response_error
               factory clock conversations request in
  let served := conversations_served fromisoformat now out in
  ∃ context_data,
    retrieve_context vector_store (message request) 4 = Ret context_data
    ∧ let stored :=
        {| created_at := created_at (session_before conversations sid clock);
           history :=
             history (session_before conversations sid clock)
             ++ turn_entries clock request
                  (generate_with_fallback factory
                     (chat_messages request context_data)
                     (Some system_prompt) (req_provider request));
           message_count :=
             message_count (session_before conversations sid clock) + 1 |} in
      get_history (conversations_after out) sid = Ok stored
      ∧ (∀ sid', sid' ≠ sid → conversations_after out !! sid' = conversations !! sid')
      ∧ (∀ status_code detail,
           result out = HTTPException status_code detail →
           served = conversations_after out)
      ∧ (∀ resp,
           result out = Ok resp →
           served = cleanup_old_sessions fromisoformat now (conversations_after out)
           ∧ (∀ sid' s e,
                conversations_after out !! sid' = Some s →
                fromisoformat (created_at s) = Raise e →
                served = conversations_after out)
           ∧ ((∀ sid' s, conversations_after out !! sid' = Some s →
                         ∃ t, fromisoformat (created_at s) = Ret t) →
              (∀ t, fromisoformat (created_at stored) = Ret t →
                    get_history served sid
                    = if older_than_a_day now t
                      then HTTPException 404 "Session not found"
                      else Ok stored)
              ∧ (∀ sid' s t,
                   sid' ≠ sid →
                   conversations !! sid' = Some s →
                   fromisoformat (created_at s) = Ret t →
                   served !! sid'
                   = if older_than_a_day now t then None else Some s))).
Proof.
  intros Hvalid sid out served.
  destruct (retrieve_context_total vector_store (message request) 4) as [cd Hcd].
  exists cd. split; [done|]. cbv zeta.
  set (llm_response := generate_with_fallback factory (chat_messages request cd)
                         (Some system_prompt) (req_provider request)).
  set (stored := {| created_at := created_at (session_before conversations sid clock);
                    history := history (session_before conversations sid clock)
                               ++ turn_entries clock request llm_response;
                    message_count :=
                      message_count (session_before conversations sid clock) + 1 |}).
  assert (conversations_after out
          = store_turn (init_session conversations sid clock) sid clock request
              llm_response) as Hafter.
  { subst out. unfold chat. rewrite Hvalid, Hcd. reflexivity. }
  assert (background_tasks out = [cleanup_old_sessions_task]) as Htasks.
  { subst out. unfold chat. rewrite Hvalid, Hcd. reflexivity. }
  assert (conversations_after out !! sid = Some stored) as Hsid.
  { rewrite Hafter. unfold store_turn, init_session, stored, session_before.
    rewrite lookup_alter_eq.
    destruct (conversations !! sid) as [s|] eqn:Hs.
    - rewrite Hs. reflexivity.
    - rewrite lookup_insert_eq. reflexivity. }
  assert (∀ sid', sid' ≠ sid → conversations_after out !! sid' = conversations !! sid')
    as Hothers.
  { intros sid' Hne. rewrite Hafter. unfold store_turn, init_session.
    rewrite lookup_alter_ne by done.
    destruct (conversations !! sid); [done|]. by rewrite lookup_insert_ne. }
  split; [unfold get_history; by rewrite Hsid|]. split; [exact Hothers|].
  split.
  - intros status_code detail Hres. subst served. unfold conversations_served.
    by rewrite Hres.
  - intros resp Hres.
    assert (served = cleanup_old_sessions fromisoformat now (conversations_after out))
      as Hserved.
    { subst served. unfold conversations_served, run_background_tasks.
      rewrite Hres, Htasks. reflexivity. }
    split; [exact Hserved|]. rewrite Hserved. split.
    + intros sid' s e Hs Hraise. by eapply cleanup_unreadable.
    + intros Hparse. split.
      * intros t Ht. unfold get_history.
        rewrite (cleanup_readable fromisoformat now _ sid Hparse), Hsid, Ht.
        by destruct (older_than_a_day now t).
      * intros sid' s t Hne Hs Ht.
        rewrite (cleanup_readable fromisoformat now _ sid' Hparse).
        rewrite (Hothers sid' Hne), Hs, Ht. done.
Qed.

End ChatEndpoint.

Lemma chat_answers_unless_no_content_witness :
  (λ (_ : string) (_ : option string), Ret ())
    (message demo_request) (session_id demo_request) = Ret ()
  ∧ (∃ text, result (chat (λ _ _, Ret ()) (Ret refund_store) "Be brief."
                       "none is not an allowed value" (demo_factory true)
                       demo_clock ∅ demo_request)
             = Ok {| response := text;
                     resp_sources := [source_of refund_doc];
                     resp_session_id := "s1";
                     success := true;
                     provider_used := "claude";
                     resp_tokens_used := Some 48 |})
  ∧ result (chat (λ _ _, Ret ()) (Ret refund_store) "Be brief."
              "none is not an allowed value" null_content_factory
              demo_clock ∅ demo_request)
    = HTTPException 500 "none is not an allowed value".
Proof.
  split; [reflexivity|]. split.
  - destruct (chat_answers_unless_no_content (λ _ _, Ret ()) "Be brief."
                "none is not an allowed value" refund_store
                (demo_factory true) demo_clock ∅ demo_request eq_refl)
      as (cd & Hcd & Hres & _).
    injection Hcd as <-. cbv zeta in Hres. rewrite Hres.
    eexists. vm_compute. reflexivity.
  - destruct (chat_answers_unless_no_content (λ _ _, Ret ()) "Be brief."
                "none is not an allowed value" refund_store
                null_content_factory demo_clock ∅ demo_request eq_refl)
      as (cd & Hcd & Hres & _).
    injection Hcd as <-. cbv zeta in Hres. rewrite Hres.
    vm_compute. reflexivity.
Defined.

Lemma chat_then_get_history_witness :
  (λ (_ : string) (_ : option string), Ret ())
    (message demo_request) (session_id demo_request) = Ret ()
  ∧ (∃ s, get_history
            (conversations_after
               (chat (λ _ _, Ret ()) (Ret refund_store) "Be brief."
                  "none is not an allowed value" (demo_factory true)
                  day3_clock demo_conversations demo_request)) "s1" = Ok s
          ∧ message_count s = 1
          ∧ get_history
              (conversations_served demo_fromisoformat (2 * 86400 * 1000000 + 1)
                 (chat (λ _ _, Ret ()) (Ret refund_store) "Be brief."
                    "none is not an allowed value" (demo_factory true)
                    day3_clock demo_conversations demo_request)) "s1" = Ok s)
  ∧ get_history
      (conversations_served demo_fromisoformat (2 * 86400 * 1000000 + 1)
         (chat (λ _ _, Ret ()) (Ret refund_store) "Be brief."
            "none is not an allowed value" (demo_factory true)
            day3_clock demo_conversations demo_request)) "old"
    = HTTPException 404 "Session not found".
Proof.
  split; [reflexivity|].
  destruct (chat_then_get_history (λ _ _, Ret ()) "Be brief."
              "none is not an allowed value" demo_fromisoformat refund_store
              (demo_factory true) day3_clock demo_conversations demo_request
              (2 * 86400 * 1000000 + 1) eq_refl)
    as (cd & _ & Hget & _ & _ & Hok).
  cbv zeta in Hget, Hok.
  destruct (Hok _ ltac:(vm_compute; reflexivity)) as (_ & _ & Hsweep).
  destruct Hsweep as [Hself Hother].
  { intros sid' s Hs. apply elem_of_map_to_list in Hs.
    assert (Forall (λ it : string * Session,
                      ∃ t, demo_fromisoformat (created_at it.2) = Ret t)
              (map_to_list
                 (conversations_after
                    (chat (λ _ _, Ret ()) (Ret refund_store) "Be brief."
                       "none is not an allowed value" (demo_factory true)
                       day3_clock demo_conversations demo_request)))) as Hall.
    { vm_compute. repeat constructor; eexists; reflexivity. }
    eapply Forall_forall in Hall; [|exact Hs]. exact Hall. }
  split.
  - eexists. split; [exact Hget|]. split; [reflexivity|].
    exact (Hself (2 * 86400 * 1000000)%Z eq_refl).
  - unfold get_history.
    by rewrite (Hother "old" {| created_at := "day-1"; history := []; message_count := 0 |}
                  0%Z ltac:(done) eq_refl eq_refl).
Defined.

(** A reply without content: the client gets HTTP 500, the exchange is
    stored all the same, with an assistant entry that has no content, and
    the cleanup does not run. *)
Example chat_null_content_demo :
  let out := chat (λ _ _, Ret ()) (Ret refund_store) "Be brief."
               "none is not an allowed value" null_content_factory
               demo_clock ∅ demo_request in
  result out = HTTPException 500 "none is not an allowed value"
  ∧ (history <$> conversations_after out !! "s1")
    = Some [ {| entry_id := "msg_01234567";
                entry_role := "user";
                entry_content := Some "What is the refund policy?";
                entry_timestamp := "2024-01-01T00:00:00";
                entry_provider := None |};
             {| entry_id := "msg_01234567";
                entry_role := "assistant";
                entry_content := None;
                entry_timestamp := "2024-01-01T00:00:00";
                entry_provider := Some "openai" |} ]
  ∧ conversations_served demo_fromisoformat 0 out = conversations_after out.
Proof. cbv zeta. split; [|split]; vm_compute; reflexivity. Qed.

(** A request served two days after the session ["old"] was created: the
    new exchange is stored and ["old"] is swept away once the answer is
    sent; served four days later still, the session of the request itself
    would be gone. *)
Example chat_sweep_demo :
  let out := chat (λ _ _, Ret ()) (Ret refund_store) "Be brief."
               "none is not an allowed value" (demo_factory true)
               day3_clock demo_conversations demo_request in
  (message_count <$> conversations_after out !! "old") = Some 0
  ∧ conversations_served demo_fromisoformat (2 * 86400 * 1000000 + 1) out !! "old" = None
  ∧ (message_count <$>
       conversations_served demo_fromisoformat (2 * 86400 * 1000000 + 1) out !! "s1")
    = Some 1
  ∧ get_history (conversations_served demo_fromisoformat (6 * 86400 * 1000000) out) "s1"
    = HTTPException 404 "Session not found".
Proof. cbv zeta. repeat split; vm_compute; reflexivity. Qed.

Section ChatStore.
Context {P : Type} `{LLMProvider P}.
Variable validator : string → option string → exn unit.
Variable make_retriever : exn VectorStore.
Variable system_prompt : string.
Variable response_error : string.

Lemma init_session_consistent (conversations : gmap string Session) (sid : string)
    (clock : Clock) :
  map_Forall (λ _ s, session_consistent s) conversations →
  map_Forall (λ _ s, session_consistent s) (init_session conversations sid clock).
Proof.
  intros Hall. unfold init_session. destruct (conversations !! sid); [done|].
  apply map_Forall_insert_2; [|done]. reflexivity.
Qed.

Lemma store_turn_consistent (conversations : gmap string Session) (sid : string)
    (clock : Clock) (request : ChatRequest) (llm_response : LLMResponse) :
  map_Forall (λ _ s, session_consistent s) conversations →
  map_Forall (λ _ s, session_consistent s)
             (store_turn conversations sid clock request llm_response).
Proof.
  intros Hall sid' s'. unfold store_turn. destruct (decide (sid = sid')) as [->|Hne].
  - rewrite lookup_alter_eq. destruct (conversations !! sid') as [s|] eqn:Hs; [|done].
    cbn. intros [= <-]. apply Hall in Hs. unfold session_consistent in *. cbn.
    rewrite length_app. cbn. lia.
  - rewrite lookup_alter_ne by done. apply Hall.
Qed.

(** [chat] keeps every stored session consistent, two history entries per
    counted exchange, whether it answers or fails. *)
Theorem chat_keeps_sessions_consistent (factory : LLMFactory P) (clock : Clock)
    (conversations : gmap string Session) (request : ChatRequest) :
  map_Forall (λ _ s, session_consistent s) conversations →
  map_Forall (λ _ s, session_consistent s)
    (conversations_after (chat validator make_retriever system_prompt response_error
                            factory clock conversations request)).
Proof.
  intros Hall. unfold chat. destruct (validator _ _); [|done].
  destruct make_retriever as [vs|]; [|by apply init_session_consistent].
  destruct (retrieve_context vs (message request) 4) as [cd|];
    [|by apply init_session_consistent].
  cbn [conversations_after]. by apply store_turn_consistent, init_session_consistent.
Qed.

(** A request that fails leaves its trace: when validation fails nothing is
    stored, but when the retriever cannot be built the answer is a 500 and
    the session has already been created, so that a new session id reads
    back as an empty session. *)
Theorem chat_failure_effects (factory : LLMFactory P) (clock : Clock)
    (conversations : gmap string Session) (request : ChatRequest) :
  let out := chat validator make_retriever system_prompt response_error
               factory clock conversations request in
  (∀ e, validator (message request) (session_id request) = Raise e →
     result out = HTTPException 500 e
     ∧ conversations_after out = conversations
     ∧ messages_sent out = None)
  ∧ (∀ e, validator (message request) (session_id request) = Ret () →
     make_retriever = Raise e →
     result out = HTTPException 500 e
     ∧ messages_sent out = None
     ∧ (conversations !! chat_session_id clock request = None →
        get_history (conversations_after out) (chat_session_id clock request)
        = Ok {| created_at := now_isoformat clock 0;
                history := [];
                message_count := 0 |})).
Proof.
  intros out. subst out. unfold chat. split.
  - intros e ->. done.
  - intros e -> ->. fold (chat_session_id clock request). cbn.
    split; [done|]. split; [done|]. intros Hnew.
    unfold get_history, init_session. rewrite Hnew. by rewrite lookup_insert_eq.
Qed.

End ChatStore.

Lemma chat_keeps_sessions_consistent_witness :
  map_Forall (λ _ s, session_consistent s) (∅ : gmap string Session)
  ∧ map_Forall (λ _ s, session_consistent s)
      (conversations_after
         (chat (λ _ _, Ret ()) (Ret refund_store) "Be brief."
            "none is not an allowed value" (demo_factory true)
            demo_clock ∅ demo_request)).
Proof.
  assert (map_Forall (λ _ s, session_consistent s) (∅ : gmap string Session)) as H0
    by apply map_Forall_empty.
  split; [exact H0|].
  exact (chat_keeps_sessions_consistent (λ _ _, Ret ()) (Ret refund_store) "Be brief."
           "none is not an allowed value" (demo_factory true) demo_clock ∅
           demo_request H0).
Defined.

(** ** Input validation *)

Lemma str_forall_app (f : ascii → bool) (a b : string) :
  str_forall f (a +:+ b) = str_forall f a && str_forall f b.
Proof.
  induction a as [|c a IH]; [done|].
  change (f c && str_forall f (a +:+ b) = f c && str_forall f a && str_forall f b).
  rewrite IH. by rewrite andb_assoc.
Qed.

Lemma nl_not_session_char : is_session_char (ascii_of_nat 10) = false.
Proof. reflexivity. Qed.

Lemma match_session_rest_spec (s : string) :
  match_session_rest s = true
  ↔ str_forall is_session_char s = true
    ∨ ∃ body, s = body +:+ nl ∧ str_forall is_session_char body = true.
Proof.
  induction s as [|c s IH].
  - split; [by left|done].
  - cbn [match_session_rest str_forall].
    destruct (is_session_char c) eqn:Hc; cbn [andb].
    + rewrite IH. split.
      * intros [Hall|(body & -> & Hbody)]; [by left|].
        right. exists (String c body). split; [done|]. cbn. by rewrite Hc.
      * intros [Hall|(body & Heq & Hbody)]; [by left|].
        destruct body as [|c' body]; cbn in Heq.
        -- injection Heq as -> _. by rewrite nl_not_session_char in Hc.
        -- injection Heq as -> ->. cbn in Hbody. rewrite Hc in Hbody.
           right. by exists body.
    + split.
      * intros [Hnl Hrest]%andb_true_iff.
        apply bool_decide_eq_true in Hnl as ->. apply bool_decide_eq_true in Hrest as ->.
        right. by exists "".
      * intros [Hall|(body & Heq & Hbody)]; [done|].
        destruct body as [|c' body]; cbn in Heq.
        -- injection Heq as -> ->. by rewrite !bool_decide_eq_true_2.
        -- injection Heq as -> _. cbn in Hbody. by rewrite Hc in Hbody.
Qed.

Lemma match_session_id_spec (s : string) :
  match_session_id s = true
  ↔ ∃ body, body ≠ "" ∧ str_forall is_session_char body = true
            ∧ (s = body ∨ s = body +:+ nl).
Proof.
  destruct s as [|c s]; cbn [match_session_id].
  - split; [done|]. intros (body & Hne & _ & [<- | Heq]); [done|].
    destruct body; [done|discriminate].
  - rewrite andb_true_iff, match_session_rest_spec. split.
    + intros [Hc [Hall|(body & -> & Hbody)]].
      * exists (String c s). split; [done|]. split; [|by left]. cbn. by rewrite Hc.
      * exists (String c body). split; [done|]. split; [|by right]. cbn. by rewrite Hc.
    + intros (body & Hne & Hbody & [<- | Heq]).
      * cbn in Hbody. apply andb_true_iff in Hbody as [Hc Hs]. split; [done|by left].
      * destruct body as [|c' body]; [done|]. cbn in Heq. injection Heq as -> ->.
        cbn in Hbody. apply andb_true_iff in Hbody as [Hc Hs].
        split; [done|]. right. by exists body.
Qed.

Lemma session_id_accepted_spec (s : string) :
  (∃ body, body ≠ "" ∧ str_forall is_session_char body = true
           ∧ (s = body ∨ s = body +:+ nl)) →
  validate_session_id (Some s) = Ret (Some s).
Proof.
  intros Hbody. apply match_session_id_spec in Hbody.
  unfold validate_session_id. cbn [py_str]. rewrite Hbody. cbn [negb].
  by rewrite andb_false_r.
Qed.

(** A session id is accepted exactly when it is absent, empty, or made of
    one or more characters of [[a-zA-Z0-9_-]], possibly followed by one
    final line feed; anything else raises ["Invalid session ID format"]. An
    accepted id is returned unchanged. *)
Theorem session_id_accepted_iff (v : option string) :
  (validate_session_id v = Ret v
   ∨ validate_session_id v = Raise "Invalid session ID format")
  ∧ (validate_session_id v = Ret v
     ↔ v = None ∨ v = Some ""
       ∨ ∃ body, body ≠ "" ∧ str_forall is_session_char body = true
                 ∧ (v = Some body ∨ v = Some (body +:+ nl))).
Proof.
  unfold validate_session_id. destruct v as [s|]; cbn [truthy py_str].
  - destruct (decide (s = "")) as [->|Hs].
    + rewrite bool_decide_eq_true_2 by done. cbn. split; [by left|].
      split; [by right; left|done].
    + rewrite bool_decide_eq_false_2 by done. cbn [negb andb].
      destruct (match_session_id s) eqn:Hm; cbn [negb].
      * split; [by left|]. split; [|done]. intros _. right. right.
        apply match_session_id_spec in Hm as (body & Hne & Hbody & [-> | ->]).
        -- exists body. split; [done|]. split; [done|by left].
        -- exists body. split; [done|]. split; [done|by right].
      * split; [by right|]. split; [done|].
        intros [[=]|[[= ->]|(body & Hne & Hbody & Hv)]]; [done|].
        assert (match_session_id s = true) as Hm'; [|congruence].
        apply match_session_id_spec. exists body. split; [done|]. split; [done|].
        destruct Hv as [[= ->]|[= ->]]; [by left|by right].
  - split; [by left|]. split; [by left|done].
Qed.

Lemma hex_digit_is_session_char (c : ascii) :
  is_hex_digit c = true → is_session_char c = true.
Proof.
  unfold is_hex_digit, is_session_char. cbv zeta.
  rewrite !orb_true_iff, !andb_true_iff, !Nat.leb_le, !Nat.eqb_eq. lia.
Qed.

Lemma str_forall_take (f : ascii → bool) (n : nat) (s : string) :
  str_forall f s = true → str_forall f (str_take n s) = true.
Proof.
  revert s. induction n as [|n IH]; intros [|c s]; cbn; try done.
  intros [Hc Hs]%andb_true_iff. rewrite Hc. cbn. by apply IH.
Qed.

Lemma str_forall_impl (f g : ascii → bool) (s : string) :
  (∀ c, f c = true → g c = true) → str_forall f s = true → str_forall g s = true.
Proof.
  intros Hfg. induction s as [|c s IH]; cbn; [done|].
  intros [Hc Hs]%andb_true_iff. by rewrite (Hfg c Hc), IH.
Qed.

(** The session ids that [chat] generates pass the validation of session
    ids, so a client can send them back. *)
Theorem generated_session_id_valid (clock : Clock) (request : ChatRequest) :
  truthy (session_id request) = false →
  str_forall is_hex_digit (uuid4_hex clock 0) = true →
  validate_session_id (Some (chat_session_id clock request))
  = Ret (Some (chat_session_id clock request))
  ∧ String.length (chat_session_id clock request) ≤ 20.
Proof.
  intros Hnone Hhex. unfold chat_session_id. rewrite Hnone. split.
  - apply session_id_accepted_spec.
    exists ("session_" +:+ str_take 12 (uuid4_hex clock 0)).
    split; [done|]. split; [|by left].
    rewrite str_forall_app. apply andb_true_iff. split; [reflexivity|].
    apply str_forall_take. eapply str_forall_impl; [|exact Hhex].
    apply hex_digit_is_session_char.
  - rewrite str_length_app. pose proof (str_take_length 12 (uuid4_hex clock 0)).
    change (String.length "session_") with 8. lia.
Qed.

Lemma generated_session_id_valid_witness :
  truthy (session_id (mkChatRequest "Hello" None None None)) = false
  ∧ str_forall is_hex_digit (uuid4_hex demo_clock 0) = true
  ∧ validate_session_id (Some "session_0123456789ab") = Ret (Some "session_0123456789ab").
Proof.
  split; [reflexivity|]. split; [reflexivity|].
  exact (proj1 (generated_session_id_valid demo_clock
                  (mkChatRequest "Hello" None None None) eq_refl eq_refl)).
Defined.

Lemma str_prefix_spec (p s : string) :
  str_prefix p s = true ↔ ∃ post, s = p +:+ post.
Proof.
  revert s. induction p as [|a p IH]; intros s.
  - split; [by exists s|done].
  - destruct s as [|b s]; cbn [str_prefix].
    + split; [done|]. by intros [post [=]].
    + rewrite andb_true_iff, bool_decide_eq_true, IH. split.
      * intros [-> [post ->]]. by exists post.
      * intros [post Heq]. change (String b s = String a (p +:+ post)) in Heq.
        injection Heq as -> ->. split; [done|by exists post].
Qed.

Lemma str_contains_spec (sub s : string) :
  str_contains sub s = true ↔ occurs_in sub s.
Proof.
  unfold occurs_in. induction s as [|c s IH]; cbn [str_contains].
  - rewrite orb_false_r, str_prefix_spec. split.
    + intros [post ->]. by exists "", post.
    + intros (pre & post & Heq). destruct pre as [|c pre]; [by exists post|done].
  - rewrite orb_true_iff, IH, str_prefix_spec. split.
    + intros [[post ->]|(pre & post & ->)]; [by exists "", post|].
      by exists (String c pre), post.
    + intros (pre & post & Heq). destruct pre as [|c' pre].
      * left. by exists post.
      * change (String c s = String c' (pre +:+ sub +:+ post)) in Heq.
        injection Heq as -> ->. right. by exists pre, post.
Qed.

Lemma str_take_drop (n : nat) (s : string) : str_take n s +:+ str_drop n s = s.
Proof.
  revert s. induction n as [|n IH]; intros [|c s]; try done.
  change (String c (str_take n s +:+ str_drop n s) = String c s). by rewrite IH.
Qed.

Lemma str_drop_app (a b : string) : str_drop (String.length a) (a +:+ b) = b.
Proof. induction a as [|c a IH]; [by destruct b|]. exact IH. Qed.

Lemma str_endswith_spec (suffix s : string) :
  str_endswith suffix s = true ↔ ∃ stem, s = stem +:+ suffix.
Proof.
  unfold str_endswith. rewrite andb_true_iff, Nat.leb_le, bool_decide_eq_true. split.
  - intros [_ Hdrop].
    exists (str_take (String.length s - String.length suffix) s).
    pose proof (str_take_drop (String.length s - String.length suffix) s) as Htd.
    by rewrite Hdrop in Htd.
  - intros [stem ->]. rewrite str_length_app. split; [lia|].
    replace (String.length stem + String.length suffix - String.length suffix)
      with (String.length stem) by lia.
    apply str_drop_app.
Qed.

(** A file name is accepted exactly when [".."], ["/"] and the backslash
    occur nowhere in it and it ends, whatever the case of its letters, in
    [.pdf], [.docx], [.txt] or [.md]; it is returned as given. A name with
    one of the forbidden parts is refused as ["Invalid filename"] before
    its type is looked at. *)
Theorem validate_filename_accepts_iff (v : string) :
  (∀ v', validate_filename v = Ret v' → v' = v)
  ∧ (validate_filename v = Ret v
     ↔ ¬ occurs_in ".." v ∧ ¬ occurs_in "/" v ∧ ¬ occurs_in "\" v
       ∧ ∃ stem ext, ext ∈ [".pdf"; ".docx"; ".txt"; ".md"]
                     ∧ str_lower v = stem +:+ ext)
  ∧ (occurs_in ".." v ∨ occurs_in "/" v ∨ occurs_in "\" v →
     validate_filename v = Raise "Invalid filename").
Proof.
  unfold validate_filename.
  destruct (str_contains ".." v) eqn:Hdd; cbn [orb].
  { apply str_contains_spec in Hdd. split; [done|]. split; [|done].
    split; [done|]. by intros [? _]. }
  destruct (str_contains "/" v) eqn:Hsl; cbn [orb].
  { apply str_contains_spec in Hsl. split; [done|]. split; [|done].
    split; [done|]. by intros (_ & ? & _). }
  destruct (str_contains "\" v) eqn:Hbs; cbn [orb].
  { apply str_contains_spec in Hbs. split; [done|]. split; [|done].
    split; [done|]. by intros (_ & _ & ? & _). }
  assert (¬ occurs_in ".." v) as Hndd
    by (rewrite <- str_contains_spec; congruence).
  assert (¬ occurs_in "/" v) as Hnsl
    by (rewrite <- str_contains_spec; congruence).
  assert (¬ occurs_in "\" v) as Hnbs
    by (rewrite <- str_contains_spec; congruence).
  assert (existsb (λ ext, str_endswith ext (str_lower v))
                  [".pdf"; ".docx"; ".txt"; ".md"] = true
          ↔ ∃ stem ext, ext ∈ [".pdf"; ".docx"; ".txt"; ".md"]
                        ∧ str_lower v = stem +:+ ext) as Hext.
  { cbn [existsb]. rewrite orb_false_r, !orb_true_iff, !str_endswith_spec. split.
    - intros [[stem Hs]|[[stem Hs]|[[stem Hs]|[stem Hs]]]]; exists stem;
        eexists; (split; [|exact Hs]); rewrite !elem_of_cons; tauto.
    - intros (stem & ext & Hin & Hs). rewrite !elem_of_cons, elem_of_nil in Hin.
      destruct Hin as [->|[->|[->|[->|[]]]]]; eauto. }
  destruct (existsb _ _) eqn:Hex; cbn [negb].
  - split; [by intros ? [= <-]|]. split; [|tauto].
    split; [|done]. intros _. split; [done|]. split; [done|]. split; [done|].
    by apply Hext.
  - split; [done|]. split; [|tauto]. split; [done|].
    intros (_ & _ & _ & Hsome). apply Hext in Hsome. done.
Qed.

(** A few file names. *)
Example validate_filename_examples :
  validate_filename "Report.PDF" = Ret "Report.PDF"
  ∧ validate_filename "../secret.txt" = Raise "Invalid filename"
  ∧ validate_filename "notes.v1..md" = Raise "Invalid filename"
  ∧ validate_filename "archive.zip" = Raise "Unsupported file type"
  ∧ validate_filename ".md" = Ret ".md".
Proof. repeat split; reflexivity. Qed.

(** ** What the Gemini adapter sends *)

Lemma all_but_last_snoc {A} (init : list A) (x : A) : all_but_last (init ++ [x]) = init.
Proof.
  unfold all_but_last. rewrite length_app. cbn [length].
  replace (length init + 1 - 1) with (length init) by lia.
  by rewrite take_app_length.
Qed.

Lemma index_last_snoc {A} (init : list A) (x : A) : index_last (init ++ [x]) = Ret x.
Proof. unfold index_last. by rewrite last_snoc. Qed.

(** The Gemini adapter sends the last message as the prompt and the earlier
    ones as history, each with the role ["user"] or ["model"] (assistant
    and system messages alike become ["model"]); the system prompt is not
    sent at all, and the answer is always reported with finish reason
    ["stop"] and without a token count. *)
Theorem Gemini_request_shape (self : BaseFields) (client : GeminiClient)
    (init : list Message) (current : Message) (system_prompt : option string) :
  Forall (λ entry, entry.1 = "user" ∨ entry.1 = "model") (map gemini_entry init)
  ∧ generate_response (GeminiProvider self client) (init ++ [current]) system_prompt
    = generate_response (GeminiProvider self client) (init ++ [current]) None
  ∧ ∀ response text,
      client (map gemini_entry init) (msg_content current) (max_tokens self)
      = Ret response →
      reply_text response = Ret text →
      generate_response (GeminiProvider self client) (init ++ [current]) system_prompt
      = Ret {| content := Some text;
               model := base_model self;
               provider := "gemini";
               tokens_used := None;
               finish_reason := Some "stop";
               error := None |}.
Proof.
  split; [|split].
  - apply Forall_map, Forall_forall. intros msg _. unfold gemini_entry. cbn [fst].
    destruct (bool_decide (msg_role msg = "user")); [by left|by right].
  - reflexivity.
  - intros response text Hclient Htext.
    unfold generate_response, Provider_LLMProvider, adapter_generate_response,
      generate_body, try_except.
    rewrite all_but_last_snoc, index_last_snoc. unfold mbind, exn_bind.
    fold gemini_entry. change (map (λ msg, gemini_entry msg) init) with (map gemini_entry init).
    by rewrite Hclient, Htext.
Qed.

Example Gemini_echo :
  generate_response (GeminiProvider demo_base echo_gemini_client)
    [ mkMessage "system" "Be brief."; mkMessage "user" "Hi";
      mkMessage "assistant" "Hello"; mkMessage "user" "Refunds?" ]
    (Some "You are a helpful assistant.")
  = Ret {| content := Some "3:Refunds?";
           model := "gpt-4o-mini";
           provider := "gemini";
           tokens_used := None;
           finish_reason := Some "stop";
           error := None |}.
Proof. reflexivity. Qed.
